(** * typepki-oiddb: the OID name database (class [OIDDataBase] of src/index.mts)

    A shallow embedding of the singleton registry and of its registration
    and lookup methods, followed by the properties of the registry's
    specification that were checked against it.

    Modelling conventions.
    - A JavaScript [string] is a [string]; [undefined] as the result of a
      property read is [None].
    - The five private tables ([Record<string, string>], created as [{}])
      are plain objects: their own properties are a [gmap string string],
      and they inherit the members of [Object.prototype].  [k in tbl]
      ([has_property]) is true for an own key and for the name of an
      inherited member; [tbl[k]] ([get]) is the own value, else the
      inherited member, else [undefined]; [tbl[k] = v] ([put]) creates or
      replaces an own property, except for ["__proto__"], where assigning a
      string does nothing.
    - The lookup methods are declared with [string] parameters and results,
      but a table read can return an inherited member, which the methods
      then return or use as a property key; parameters and results are
      therefore [JSValue]s, a string standing for itself.
    - The mappings inside an [OIDDataSet] are only ever enumerated with
      [for (k in obj)] and read back with [obj[k]]; they are association
      lists holding the pairs [(k, obj[k])] in enumeration order.  The keys
      of an object are pairwise distinct ([wf_record]).
    - Methods mutate [this]; here they take the receiver and return the
      updated receiver.
    - Three revisions of the class are in the repository.  [regist],
      [registOne], [nametooid], [shorttooid] and [aliasto] below are common
      to src/index.mts and to the later revision that adds the [useUndef]
      flag; the four lookups that differ are in the modules [Plain]
      (src/index.mts) and [UseUndef] (the revision with the flag, the one
      the test suite with [oidtoname("1.2.3.4", true)] runs against).  The
      earliest revision, whose data sets carry an [oidtoname] member
      instead of [nametooid], is in the module [Early]. *)

From stdpp Require Import base strings gmap list.

Open Scope string_scope.

(** ** JavaScript values and plain objects *)

(** The names of the members of [Object.prototype], which every object
    created by [{}] inherits.  All are functions except ["__proto__"], an
    accessor whose getter returns the prototype object. *)
Definition Object_prototype_names : list string :=
  ["constructor"; "__defineGetter__"; "__defineSetter__"; "hasOwnProperty";
   "__lookupGetter__"; "__lookupSetter__"; "isPrototypeOf";
   "propertyIsEnumerable"; "toString"; "valueOf"; "__proto__";
   "toLocaleString"].

Definition inherited (k : string) : Prop := k ∈ Object_prototype_names.

#[global] Instance inherited_dec (k : string) : Decision (inherited k).
Proof. unfold inherited. apply _. Defined.

(** What a table read or a lookup can give, [undefined] apart: a string,
    or the member of [Object.prototype] of a given name. *)
Inductive JSValue : Type :=
  | Str (s : string)
  | Member (k : string).

Coercion Str : string >-> JSValue.

(** A string written where a value is expected is that string. *)
Arguments Some {A}%_type_scope & a.

#[global] Instance JSValue_eq_dec : EqDecision JSValue.
Proof. solve_decision. Defined.

(** [String(v)] for an inherited member: the prototype object prints as
    ["[object Object]"]; the text of a built-in function is fixed by the
    language up to white space and is given here as V8 prints it. *)
Definition member_to_string (k : string) : string :=
  if decide (k = "__proto__") then "[object Object]"
  else "function " +:+ (if decide (k = "constructor") then "Object" else k)
       +:+ "() { [native code] }".

(** The property key a value is converted to in [tbl[v]]. *)
Definition to_key (v : JSValue) : string :=
  match v with
  | Str s => s
  | Member k => member_to_string k
  end.

(** [k in tbl] *)
Definition has_property (tbl : gmap string string) (k : string) : Prop :=
  is_Some (tbl !! k) ∨ inherited k.

(** [tbl[k]] *)
Definition get (tbl : gmap string string) (k : string) : option JSValue :=
  match tbl !! k with
  | Some s => Some (Str s)
  | None => if decide (inherited k) then Some (Member k) else None
  end.

(** [tbl[k] = v] for a string [v] *)
Definition put (k v : string) (tbl : gmap string string)
  : gmap string string :=
  if decide (k = "__proto__") then tbl else <[k := v]> tbl.

(** ** Data model *)

(** [interface OIDDataSet]: the optional members are [None] when absent. *)
Module OIDDataSet.
Record t : Type := make {
  setname : string;
  nametooid : list (string * string);
  shorttoname : option (list (string * string));
  alias : option (list (string * string))
}.
End OIDDataSet.

(** The keys of a JavaScript object are pairwise distinct. *)
Definition wf_record (rec : list (string * string)) : Prop :=
  NoDup (rec.*1).

(** The private fields of [class OIDDataBase]. *)
Record OIDDataBase : Type := mkOIDDataBase {
  _uuid : string;
  _dbOID2NAME : gmap string string;
  _dbNAME2OID : gmap string string;
  _dbSHORT2NAME : gmap string string;
  _dbNAME2SHORT : gmap string string;
  _dbALIAS : gmap string string;
  _setlist : list string
}.

(** The field initialisers of the class, run by [new OIDDataBase()]. *)
Definition new_OIDDataBase : OIDDataBase :=
  {| _uuid := "";
     _dbOID2NAME := ∅; _dbNAME2OID := ∅;
     _dbSHORT2NAME := ∅; _dbNAME2SHORT := ∅;
     _dbALIAS := ∅;
     _setlist := [] |}.

(** ** Registration *)

(** [if (! (k in tbl)) tbl[k] = v;] *)
Definition set_if_absent (k v : string) (tbl : gmap string string)
  : gmap string string :=
  if decide (has_property tbl k) then tbl else put k v tbl.

(** Body of the first loop of [registOne], for one [name] of
    [dataset.nametooid] with [oid = dataset.nametooid[name]]. *)
Definition regist_nametooid (this : OIDDataBase) (entry : string * string)
  : OIDDataBase :=
  let '(name, oid) := entry in
  {| _uuid := _uuid this;
     _dbOID2NAME := set_if_absent oid name (_dbOID2NAME this);
     _dbNAME2OID := set_if_absent name oid (_dbNAME2OID this);
     _dbSHORT2NAME := _dbSHORT2NAME this;
     _dbNAME2SHORT := _dbNAME2SHORT this;
     _dbALIAS := _dbALIAS this;
     _setlist := _setlist this |}.

(** Body of the second loop, for one [short] of [dataset.shorttoname]
    with [name = dataset.shorttoname[short]]. *)
Definition regist_shorttoname (this : OIDDataBase) (entry : string * string)
  : OIDDataBase :=
  let '(short, name) := entry in
  {| _uuid := _uuid this;
     _dbOID2NAME := _dbOID2NAME this;
     _dbNAME2OID := _dbNAME2OID this;
     _dbSHORT2NAME := set_if_absent short name (_dbSHORT2NAME this);
     _dbNAME2SHORT := set_if_absent name short (_dbNAME2SHORT this);
     _dbALIAS := _dbALIAS this;
     _setlist := _setlist this |}.

(** Body of the third loop, for one [alias] of [dataset.alias] with
    [origin = dataset.alias[alias]]. *)
Definition regist_alias (this : OIDDataBase) (entry : string * string)
  : OIDDataBase :=
  let '(alias, origin) := entry in
  {| _uuid := _uuid this;
     _dbOID2NAME := _dbOID2NAME this;
     _dbNAME2OID := _dbNAME2OID this;
     _dbSHORT2NAME := _dbSHORT2NAME this;
     _dbNAME2SHORT := _dbNAME2SHORT this;
     _dbALIAS := set_if_absent alias origin (_dbALIAS this);
     _setlist := _setlist this |}.

(** [if (obj !== undefined) { for (let k in obj) ... }] *)
Definition for_in_optional (body : OIDDataBase → string * string → OIDDataBase)
    (obj : option (list (string * string))) (this : OIDDataBase)
  : OIDDataBase :=
  match obj with
  | Some rec => foldl body this rec
  | None => this
  end.

(** [private registOne(dataset: OIDDataSet): void].  The method returns
    early when [_setlist] includes the set name, then runs the three loops;
    it has no statement that writes [_setlist]. *)
Definition registOne (dataset : OIDDataSet.t) (this : OIDDataBase)
  : OIDDataBase :=
  if decide (OIDDataSet.setname dataset ∈ _setlist this) then this
  else
    let this1 := foldl regist_nametooid this (OIDDataSet.nametooid dataset) in
    let this2 := for_in_optional regist_shorttoname (OIDDataSet.shorttoname dataset) this1 in
    for_in_optional regist_alias (OIDDataSet.alias dataset) this2.

(** [regist(datasetList: OIDDataSet[]): void], a [forEach] over the
    array calling [registOne]. *)
Definition regist (datasetList : list OIDDataSet.t) (this : OIDDataBase)
  : OIDDataBase :=
  foldl (λ db value, registOne value db) this datasetList.

(** ** Lookups common to both revisions *)

(** [nametooid(name: string): string] *)
Definition nametooid (this : OIDDataBase) (name : JSValue) : option JSValue :=
  let name2 :=
    match get (_dbALIAS this) (to_key name) with
    | Some origin => origin
    | None => name
    end in
  get (_dbNAME2OID this) (to_key name2).

(** [shorttooid(short: string): string] *)
Definition shorttooid (this : OIDDataBase) (short : JSValue) : option JSValue :=
  match get (_dbSHORT2NAME this) (to_key short) with
  | None => None
  | Some name => get (_dbNAME2OID this) (to_key name)
  end.

(** [aliasto(aliasfrom: string): string] *)
Definition aliasto (this : OIDDataBase) (aliasfrom : JSValue) : option JSValue :=
  get (_dbALIAS this) (to_key aliasfrom).

(** [get uuid(): string] *)
Definition uuid (this : OIDDataBase) : string := _uuid this.

(** ** Lookups of src/index.mts (no [useUndef] parameter) *)
Module Plain.

(** [oidtoname(oid: string): string] *)
Definition oidtoname (this : OIDDataBase) (oid : JSValue) : option JSValue :=
  get (_dbOID2NAME this) (to_key oid).

(** [shorttoname(short: string): string] *)
Definition shorttoname (this : OIDDataBase) (short : JSValue) : option JSValue :=
  get (_dbSHORT2NAME this) (to_key short).

(** [nametoshort(name: string): string] *)
Definition nametoshort (this : OIDDataBase) (name : JSValue) : option JSValue :=
  get (_dbNAME2SHORT this) (to_key name).

(** [oidtoshort(oid: string): string] *)
Definition oidtoshort (this : OIDDataBase) (oid : JSValue) : option JSValue :=
  match get (_dbOID2NAME this) (to_key oid) with
  | None => Some oid
  | Some name =>
      match get (_dbNAME2SHORT this) (to_key name) with
      | None => Some name
      | Some short => Some short
      end
  end.

End Plain.

(** ** Lookups of the revision with the [useUndef] flag

    [useUndef?: boolean] is only tested for truthiness; an omitted argument
    is [false]. *)
Module UseUndef.

(** [oidtoname(oid: string, useUndef?: boolean): string | undefined] *)
Definition oidtoname (this : OIDDataBase) (oid : JSValue) (useUndef : bool)
  : option JSValue :=
  match get (_dbOID2NAME this) (to_key oid) with
  | Some name => Some name
  | None => if useUndef then None else Some oid
  end.

(** [shorttoname(short: string, useUndef?: boolean): string | undefined] *)
Definition shorttoname (this : OIDDataBase) (short : JSValue) (useUndef : bool)
  : option JSValue :=
  match get (_dbSHORT2NAME this) (to_key short) with
  | Some name => Some name
  | None => if useUndef then None else Some short
  end.

(** [nametoshort(name: string, useUndef?: boolean): string | undefined] *)
Definition nametoshort (this : OIDDataBase) (name : JSValue) (useUndef : bool)
  : option JSValue :=
  match get (_dbNAME2SHORT this) (to_key name) with
  | Some short => Some short
  | None => if useUndef then None else Some name
  end.

(** [oidtoshort(oid: string, useUndef?: boolean): string | undefined] *)
Definition oidtoshort (this : OIDDataBase) (oid : JSValue) (useUndef : bool)
  : option JSValue :=
  match get (_dbOID2NAME this) (to_key oid) with
  | None => if useUndef then None else Some oid
  | Some name =>
      match get (_dbNAME2SHORT this) (to_key name) with
      | None => Some name
      | Some short => Some short
      end
  end.

End UseUndef.

(** ** The singleton

    [private static _instance] is [undefined] until the getter [instance]
    first runs.  The process state is that static field; the value that
    [crypto.randomUUID()] returns is supplied by the environment. *)
Definition instance (randomUUID : string) (_instance : option OIDDataBase)
  : OIDDataBase * option OIDDataBase :=
  match _instance with
  | Some this => (this, _instance)
  | None =>
      let this :=
        {| _uuid := randomUUID;
           _dbOID2NAME := _dbOID2NAME new_OIDDataBase;
           _dbNAME2OID := _dbNAME2OID new_OIDDataBase;
           _dbSHORT2NAME := _dbSHORT2NAME new_OIDDataBase;
           _dbNAME2SHORT := _dbNAME2SHORT new_OIDDataBase;
           _dbALIAS := _dbALIAS new_OIDDataBase;
           _setlist := _setlist new_OIDDataBase |} in
      (this, Some this)
  end.

(** A call made by a client of the module, on the process state that
    holds the static [_instance] field.  The methods are reached through
    the object that the getter returned, so a method call on a process
    where [instance] was never read has no receiver and leaves the state
    as it is.  The lookup methods only read the tables. *)
Inductive call : Type :=
  | GetInstance (randomUUID : string)
  | GetUuid
  | Regist (datasetList : list OIDDataSet.t)
  | Lookup (method : OIDDataBase → JSValue → option JSValue) (arg : JSValue).

Definition step (_instance : option OIDDataBase) (c : call)
  : option OIDDataBase :=
  match c with
  | GetInstance randomUUID => (instance randomUUID _instance).2
  | GetUuid => _instance
  | Regist datasetList => regist datasetList <$> _instance
  | Lookup _ _ => _instance
  end.

Definition run (calls : list call) (_instance : option OIDDataBase)
  : option OIDDataBase :=
  foldl step _instance calls.

(** ** The bundled data sets *)

(** [export const OIDSET_CRYPTO]: OID definitions for cryptograhpic algorithms (src/index.mts). *)
Definition OIDSET_CRYPTO : OIDDataSet.t :=
  {| OIDDataSet.setname := "crypto";
     OIDDataSet.nametooid :=
      [("ecPublicKey", "1.2.840.10045.2.1");
       ("prime256v1", "1.2.840.10045.3.1.7");
       ("ecdsaWithSHA1", "1.2.840.10045.4.1");
       ("ecdsaWithSHA224", "1.2.840.10045.4.3.1");
       ("ecdsaWithSHA256", "1.2.840.10045.4.3.2");
       ("ecdsaWithSHA384", "1.2.840.10045.4.3.3");
       ("ecdsaWithSHA512", "1.2.840.10045.4.3.4");
       ("rsaEncryption", "1.2.840.113549.1.1.1");
       ("sha1WithRSAEncryption", "1.2.840.113549.1.1.5");
       ("mgf1", "1.2.840.113549.1.1.8");
       ("rsaPSS", "1.2.840.113549.1.1.10");
       ("sha256WithRSAEncryption", "1.2.840.113549.1.1.11");
       ("sha384WithRSAEncryption", "1.2.840.113549.1.1.12");
       ("sha512WithRSAEncryption", "1.2.840.113549.1.1.13");
       ("sha224WithRSAEncryption", "1.2.840.113549.1.1.14");
       ("sha1", "1.3.14.3.2.26");
       ("secp384r1", "1.3.132.0.34");
       ("secp521r1", "1.3.132.0.35");
       ("sha224", "2.16.840.1.101.3.4.2.4");
       ("sha256", "2.16.840.1.101.3.4.2.1");
       ("sha384", "2.16.840.1.101.3.4.2.2");
       ("sha512", "2.16.840.1.101.3.4.2.3");
       ("dsa", "1.2.840.10040.4.1");
       ("SHA1withDSA", "1.2.840.10040.4.3");
       ("SHA224withDSA", "2.16.840.1.101.3.4.3.1");
       ("SHA256withDSA", "2.16.840.1.101.3.4.3.2")];
     OIDDataSet.shorttoname := None;
     OIDDataSet.alias := Some
      [("P-256", "prime256v1");
       ("P-384", "secp384r1");
       ("P-521", "secp521r1");
       ("NIST P-256", "prime256v1");
       ("NIST P-384", "secp384r1");
       ("NIST P-521", "secp521r1");
       ("secp256r1", "prime256v1")] |}.

(** [export const OIDSET_X509]: OID definitions for basic X.509 (src/index.mts). *)
Definition OIDSET_X509 : OIDDataSet.t :=
  {| OIDDataSet.setname := "x509";
     OIDDataSet.nametooid :=
      [("commonName", "2.5.4.3");
       ("countryName", "2.5.4.6");
       ("organizationName", "2.5.4.10");
       ("organizationIdentifier", "2.5.4.97");
       ("subjectKeyIdentifier", "2.5.29.14");
       ("keyUsage", "2.5.29.15");
       ("subjectAltName", "2.5.29.17");
       ("basicConstraints", "2.5.29.19");
       ("certificatePolicies", "2.5.29.32");
       ("authorityKeyIdentifier", "2.5.29.35");
       ("extKeyUsage", "2.5.29.37");
       ("authorityInfoAccess", "1.3.6.1.5.5.7.1.1");
       ("serverAuth", "1.3.6.1.5.5.7.3.1");
       ("clientAuth", "1.3.6.1.5.5.7.3.2");
       ("ocsp", "1.3.6.1.5.5.7.48.1");
       ("caIssuers", "1.3.6.1.5.5.7.48.2");
       ("extendedValidationCertificates", "1.3.6.1.4.1.11129.2.4.2");
       ("cabfBrDomainValidated", "2.23.140.1.2.1")];
     OIDDataSet.shorttoname := Some
      [("CN", "commonName");
       ("OU", "organizationName");
       ("C", "countryName")];
     OIDDataSet.alias := None |}.

(** ** Custom data sets used in the examples

    Data sets of the shape the README gives for custom registration. *)

(** Two different data sets offered under the same set name. *)
Definition MYOIDSET : OIDDataSet.t :=
  {| OIDDataSet.setname := "myoid";
     OIDDataSet.nametooid :=
      [("my-oid-one", "1.2.3.4.5.1")];
     OIDDataSet.shorttoname := None;
     OIDDataSet.alias := None |}.

Definition MYOIDSET_AGAIN : OIDDataSet.t :=
  {| OIDDataSet.setname := "myoid";
     OIDDataSet.nametooid :=
      [("my-oid-two", "1.2.3.4.5.2")];
     OIDDataSet.shorttoname := None;
     OIDDataSet.alias := None |}.

(** A data set that reuses a name and an OID of [OIDSET_X509] and an alias
    of [OIDSET_CRYPTO]. *)
Definition CLASHSET : OIDDataSet.t :=
  {| OIDDataSet.setname := "clash";
     OIDDataSet.nametooid :=
      [("keyUsage", "1.2.3.4.5.1");
       ("my-key-usage", "2.5.29.15")];
     OIDDataSet.shorttoname := Some [("CN", "canonicalName")];
     OIDDataSet.alias := Some [("P-256", "secp384r1")] |}.




(** The registry of the test suite: [oiddb.regist([OIDSET_CRYPTO,
    OIDSET_X509])] on the fresh instance. *)
Definition oiddb : OIDDataBase :=
  regist [OIDSET_CRYPTO; OIDSET_X509] new_OIDDataBase.

(** ** Notions used to state the properties *)

(** The five tables, under the names the specification gives them. *)
Inductive table : Type :=
  | oidToName | nameToOid | shortToName | nameToShort | aliasToName.

Definition table_of (t : table) (this : OIDDataBase) : gmap string string :=
  match t with
  | oidToName => _dbOID2NAME this
  | nameToOid => _dbNAME2OID this
  | shortToName => _dbSHORT2NAME this
  | nameToShort => _dbNAME2SHORT this
  | aliasToName => _dbALIAS this
  end.

(** The keys of an object whose value is [v], in enumeration order. *)
Definition keys_of_value (v : string) (rec : list (string * string))
  : list string :=
  (filter (λ entry, entry.2 = v) rec).*1.

(** What one [for (k in obj)] loop of [registOne] does to a single table
    whose key is [k] and whose value is [obj[k]]. *)
Definition merge_first (rec : list (string * string))
    (tbl : gmap string string) : gmap string string :=
  foldl (λ t entry, set_if_absent entry.1 entry.2 t) tbl rec.

(** An absent optional member contributes no entry. *)
Definition entries (obj : option (list (string * string)))
  : list (string * string) :=
  default [] obj.

(** [db'] has every entry of [db], the same uuid and the same set list. *)
Record extends (db db' : OIDDataBase) : Prop := mk_extends {
  ext_uuid : _uuid db' = _uuid db;
  ext_tables : ∀ t, table_of t db ⊆ table_of t db';
  ext_setlist : _setlist db' = _setlist db
}.

(** Every key that merging [dataset] would test is in the table it is
    tested against ([k in tbl]), so that nothing would be written. *)
Record covered (dataset : OIDDataSet.t) (db : OIDDataBase) : Prop := mk_covered {
  cov_name : ∀ name oid, (name, oid) ∈ OIDDataSet.nametooid dataset →
             has_property (_dbNAME2OID db) name ∧ has_property (_dbOID2NAME db) oid;
  cov_short : ∀ short name, (short, name) ∈ entries (OIDDataSet.shorttoname dataset) →
             has_property (_dbSHORT2NAME db) short ∧ has_property (_dbNAME2SHORT db) name;
  cov_alias : ∀ alias origin, (alias, origin) ∈ entries (OIDDataSet.alias dataset) →
             has_property (_dbALIAS db) alias
}.

(** The pairs [(key, value)] that merging [dataset] offers to table [t],
    in the order [registOne] offers them.  The tables keyed by the values
    of a mapping ([oidToName], [nameToShort]) are offered the swapped
    pairs. *)
Definition pairs_written (t : table) (dataset : OIDDataSet.t)
  : list (string * string) :=
  match t with
  | oidToName => prod_swap <$> OIDDataSet.nametooid dataset
  | nameToOid => OIDDataSet.nametooid dataset
  | shortToName => entries (OIDDataSet.shorttoname dataset)
  | nameToShort => prod_swap <$> entries (OIDDataSet.shorttoname dataset)
  | aliasToName => entries (OIDDataSet.alias dataset)
  end.

(** The pairs of [rec] whose key is not the name of an inherited member:
    the only ones a guarded write can write. *)
Definition own_entries (rec : list (string * string))
  : list (string * string) :=
  filter (λ entry, ¬ inherited entry.1) rec.

(** The value of the first pair of [rec] whose key is [k]. *)
Definition first_value (k : string) (rec : list (string * string))
  : option string :=
  snd <$> head (filter (λ entry, entry.1 = k) rec).

(** Two data sets that offer no common key to any table. *)
Definition independent (a b : OIDDataSet.t) : Prop :=
  ∀ t k, k ∈ (pairs_written t a).*1 → k ∉ (pairs_written t b).*1.

(** [nameToOid] and [oidToName] are inverse to each other, and so are
    [shortToName] and [nameToShort]. *)
Definition inverse_tables (db : OIDDataBase) : Prop :=
  (∀ name oid, _dbNAME2OID db !! name = Some oid ↔ _dbOID2NAME db !! oid = Some name)
  ∧ (∀ short name,
       _dbSHORT2NAME db !! short = Some name ↔ _dbNAME2SHORT db !! name = Some short).

(** A data set whose mappings are one-to-one and bring only keys that
    the tables of [db] do not have yet, own or inherited. *)
Definition clean (dataset : OIDDataSet.t) (db : OIDDataBase) : Prop :=
  ∀ t, NoDup (pairs_written t dataset).*1
       ∧ ∀ k, k ∈ (pairs_written t dataset).*1 →
              table_of t db !! k = None ∧ ¬ inherited k.

(** ** The bundled X.509 data set of the revision with the [useUndef] flag

    [OIDSET_CRYPTO] is the same in both revisions; [OIDSET_X509] has more
    entries in the later one. *)
Module UseUndefSets.

(** [export const OIDSET_X509]: OID definitions for basic X.509. *)
Definition OIDSET_X509 : OIDDataSet.t :=
  {| OIDDataSet.setname := "x509";
     OIDDataSet.nametooid :=
      [("commonName", "2.5.4.3");
       ("serialNumber", "2.5.4.5");
       ("countryName", "2.5.4.6");
       ("localityName", "2.5.4.7");
       ("stateOrProvinceName", "2.5.4.8");
       ("streetAddress", "2.5.4.9");
       ("organizationName", "2.5.4.10");
       ("organizationalUnitName", "2.5.4.11");
       ("domainComponent", "0.9.2342.19200300.100.1.25");
       ("userId", "0.9.2342.19200300.100.1.1");
       ("surname", "2.5.4.4");
       ("givenName", "2.5.4.42");
       ("title", "2.5.4.12");
       ("distinguishedName", "2.5.4.49");
       ("emailAddress", "1.2.840.113549.1.9.1");
       ("description", "2.5.4.13");
       ("businessCategory", "2.5.4.15");
       ("postalCode", "2.5.4.17");
       ("uniqueIdentifier", "2.5.4.45");
       ("organizationIdentifier", "2.5.4.97");
       ("jurisdictionOfIncorporationL", "1.3.6.1.4.1.311.60.2.1.1");
       ("jurisdictionOfIncorporationSP", "1.3.6.1.4.1.311.60.2.1.2");
       ("jurisdictionOfIncorporationC", "1.3.6.1.4.1.311.60.2.1.3");
       ("subjectDirectoryAttributes", "2.5.29.9");
       ("subjectKeyIdentifier", "2.5.29.14");
       ("keyUsage", "2.5.29.15");
       ("privateKeyUsagePeriod", "2.5.29.16");
       ("subjectAltName", "2.5.29.17");
       ("issuerAltName", "2.5.29.18");
       ("basicConstraints", "2.5.29.19");
       ("cRLNumber", "2.5.29.20");
       ("cRLReason", "2.5.29.21");
       ("holdInstructionCode", "2.5.29.23");
       ("deltaCRLIndicator", "2.5.29.27");
       ("issuerDistributionPoint", "2.5.29.28");
       ("certificateIssuer", "2.5.29.29");
       ("nameConstraints", "2.5.29.30");
       ("cRLDistributionPoints", "2.5.29.31");
       ("certificatePolicies", "2.5.29.32");
       ("anyPolicy", "2.5.29.32.0");
       ("policyMappings", "2.5.29.33");
       ("authorityKeyIdentifier", "2.5.29.35");
       ("policyConstraints", "2.5.29.36");
       ("extKeyUsage", "2.5.29.37");
       ("anyExtendedKeyUsage", "2.5.29.37.0");
       ("freshestCRL", "2.5.29.46");
       ("inhibitAnyPolicy", "2.5.29.54");
       ("cps", "1.3.6.1.5.5.7.2.1");
       ("unotice", "1.3.6.1.5.5.7.2.2");
       ("authorityInfoAccess", "1.3.6.1.5.5.7.1.1");
       ("subjectInfoAccess", "1.3.6.1.5.5.7.1.11");
       ("serverAuth", "1.3.6.1.5.5.7.3.1");
       ("clientAuth", "1.3.6.1.5.5.7.3.2");
       ("codeSigning", "1.3.6.1.5.5.7.3.3");
       ("emailProtection", "1.3.6.1.5.5.7.3.4");
       ("timeStamping", "1.3.6.1.5.5.7.3.8");
       ("ocspSigning", "1.3.6.1.5.5.7.3.9");
       ("ocsp", "1.3.6.1.5.5.7.48.1");
       ("caIssuers", "1.3.6.1.5.5.7.48.2");
       ("extendedValidationCertificates", "1.3.6.1.4.1.11129.2.4.2");
       ("cabfBrDomainValidated", "2.23.140.1.2.1")];
     OIDDataSet.shorttoname := Some
      [("CN", "commonName");
       ("L", "localityName");
       ("ST", "stateOrProvinceName");
       ("O", "organizationName");
       ("OU", "organizationalUnitName");
       ("C", "countryName");
       ("STREET", "streetAddress");
       ("DC", "domainComponent");
       ("UID", "userId");
       ("SN", "surname");
       ("T", "title");
       ("GN", "givenName");
       ("DN", "distinguishedName");
       ("E", "emailAddress")];
     OIDDataSet.alias := None |}.

(** [oiddb.regist([OIDSET_CRYPTO, OIDSET_X509])] on the fresh instance. *)
Definition oiddb : OIDDataBase :=
  regist [OIDSET_CRYPTO; OIDSET_X509] new_OIDDataBase.

End UseUndefSets.

(** The data sets of a list, each merged (not skipped) and bringing only
    new keys, one key per value, at the moment it is merged. *)
Fixpoint clean_list (datasetList : list OIDDataSet.t) (db : OIDDataBase)
  : Prop :=
  match datasetList with
  | [] => True
  | dataset :: rest =>
      (OIDDataSet.setname dataset ∉ _setlist db)
      ∧ clean dataset db
      ∧ clean_list rest (registOne dataset db)
  end.

(** ** The earliest revision of the class

    In the earliest revision a data set carries [oidtoname], keyed by OID,
    instead of [nametooid]; [registOne] tests only the key of each entry,
    writes both tables of a pair when the key is new and reports a taken
    key with [console.log], and its writes to [nameToOid] and
    [nameToShort] are not guarded; [oidtoshort] has no fallback.  The private
    fields and the other methods are those of src/index.mts.  The console
    is the list of the lines written so far. *)
Module Early.

(** [interface OIDDataSet] *)
Record OIDDataSet : Type := make {
  setname : string;
  oidtoname : list (string * string);
  shorttoname : option (list (string * string));
  alias : option (list (string * string))
}.

(** Body of the first loop of [registOne], for one [oid] of
    [dataset.oidtoname]. *)
Definition regist_oidtoname (st : OIDDataBase * list string)
    (entry : string * string) : OIDDataBase * list string :=
  let '(this, console) := st in
  let '(oid, name) := entry in
  if decide (has_property (_dbOID2NAME this) oid) then
    (this, (console ++ ["already registered: " +:+ oid])%list)
  else
    ({| _uuid := _uuid this;
        _dbOID2NAME := put oid name (_dbOID2NAME this);
        _dbNAME2OID := put name oid (_dbNAME2OID this);
        _dbSHORT2NAME := _dbSHORT2NAME this;
        _dbNAME2SHORT := _dbNAME2SHORT this;
        _dbALIAS := _dbALIAS this;
        _setlist := _setlist this |}, console).

(** Body of the second loop, for one [short] of [dataset.shorttoname]. *)
Definition regist_shorttoname (st : OIDDataBase * list string)
    (entry : string * string) : OIDDataBase * list string :=
  let '(this, console) := st in
  let '(short, name) := entry in
  if decide (has_property (_dbSHORT2NAME this) short) then
    (this, (console ++ ["already registered short name: " +:+ short])%list)
  else
    ({| _uuid := _uuid this;
        _dbOID2NAME := _dbOID2NAME this;
        _dbNAME2OID := _dbNAME2OID this;
        _dbSHORT2NAME := put short name (_dbSHORT2NAME this);
        _dbNAME2SHORT := put name short (_dbNAME2SHORT this);
        _dbALIAS := _dbALIAS this;
        _setlist := _setlist this |}, console).

(** Body of the third loop, for one [alias] of [dataset.alias]. *)
Definition regist_alias (st : OIDDataBase * list string)
    (entry : string * string) : OIDDataBase * list string :=
  let '(this, console) := st in
  let '(alias, origin) := entry in
  if decide (has_property (_dbALIAS this) alias) then
    (this, (console ++ ["already registered alias: " +:+ alias])%list)
  else
    ({| _uuid := _uuid this;
        _dbOID2NAME := _dbOID2NAME this;
        _dbNAME2OID := _dbNAME2OID this;
        _dbSHORT2NAME := _dbSHORT2NAME this;
        _dbNAME2SHORT := _dbNAME2SHORT this;
        _dbALIAS := put alias origin (_dbALIAS this);
        _setlist := _setlist this |}, console).

(** [if (obj !== undefined) { for (let k in obj) ... }] *)
Definition for_in_optional
    (body : OIDDataBase * list string → string * string → OIDDataBase * list string)
    (obj : option (list (string * string))) (st : OIDDataBase * list string)
  : OIDDataBase * list string :=
  match obj with
  | Some rec => foldl body st rec
  | None => st
  end.

(** [private registOne(dataset: OIDDataSet): void] *)
Definition registOne (dataset : OIDDataSet) (st : OIDDataBase * list string)
  : OIDDataBase * list string :=
  if decide (setname dataset ∈ _setlist st.1) then st
  else
    let st1 := foldl regist_oidtoname st (oidtoname dataset) in
    let st2 := for_in_optional regist_shorttoname (shorttoname dataset) st1 in
    for_in_optional regist_alias (alias dataset) st2.

(** [regist(datasetList: OIDDataSet[]): void] *)
Definition regist (datasetList : list OIDDataSet)
    (st : OIDDataBase * list string) : OIDDataBase * list string :=
  foldl (λ st value, registOne value st) st datasetList.

(** [oidtoshort(oid: string): string] *)
Definition oidtoshort (this : OIDDataBase) (oid : JSValue) : option JSValue :=
  match get (_dbOID2NAME this) (to_key oid) with
  | None => None
  | Some name => get (_dbNAME2SHORT this) (to_key name)
  end.

(** The same entries as a data set of the later revisions: each pair of
    [oidtoname] turned round, in the same order. *)
Definition to_nametooid (dataset : OIDDataSet) : OIDDataSet.t :=
  {| OIDDataSet.setname := setname dataset;
     OIDDataSet.nametooid := prod_swap <$> oidtoname dataset;
     OIDDataSet.shorttoname := shorttoname dataset;
     OIDDataSet.alias := alias dataset |}.

(** Every entry of [nameToOid] is matched by the entry of [oidToName]
    that goes back, and every entry of [nameToShort] by the entry of
    [shortToName] that goes back. *)
Definition points_back (db : OIDDataBase) : Prop :=
  (∀ name oid, _dbNAME2OID db !! name = Some oid → _dbOID2NAME db !! oid = Some name)
  ∧ (∀ name short,
       _dbNAME2SHORT db !! name = Some short → _dbSHORT2NAME db !! short = Some name).

(** The keys of [rec] that are in [tbl] ([k in tbl]), in enumeration
    order. *)
Definition taken_keys (rec : list (string * string))
    (tbl : gmap string string) : list string :=
  filter (has_property tbl) rec.*1.

(** A data set that gives a second OID to the name "sha1". *)
Definition SHA1SET : OIDDataSet :=
  {| setname := "sha1";
     oidtoname := [("1.3.14.3.2.26", "sha1")];
     shorttoname := None;
     alias := None |}.

Definition SHA1SET_OTHER : OIDDataSet :=
  {| setname := "sha1-other";
     oidtoname := [("1.3.14.3.2.26", "SHA-1"); ("1.3.14.3.2.18", "sha1")];
     shorttoname := None;
     alias := None |}.

(** What one loop of [registOne] does to the table it tests ([fwd]), to
    the table of the opposite direction ([bwd]) and to the console. *)
Definition write_new (prefix : string)
    (st : gmap string string * gmap string string * list string)
    (entry : string * string)
  : gmap string string * gmap string string * list string :=
  let '(fwd, bwd, console) := st in
  if decide (has_property fwd entry.1) then
    (fwd, bwd, (console ++ [prefix +:+ entry.1])%list)
  else
    (put entry.1 entry.2 fwd, put entry.2 entry.1 bwd, console).

(** Every key the earliest [registOne] would test for [dataset] is in
    the table it is tested against. *)
Definition covered (dataset : OIDDataSet) (db : OIDDataBase) : Prop :=
  (∀ oid, oid ∈ (oidtoname dataset).*1 → has_property (_dbOID2NAME db) oid)
  ∧ (∀ short, short ∈ (entries (shorttoname dataset)).*1 →
       has_property (_dbSHORT2NAME db) short)
  ∧ (∀ aliasfrom, aliasfrom ∈ (entries (alias dataset)).*1 →
       has_property (_dbALIAS db) aliasfrom).

End Early.

(** * Properties *)

(** ** Plain objects *)

Lemma has_property_own tbl k v : tbl !! k = Some v → has_property tbl k.
Proof. intros H. left. eauto. Qed.

Lemma has_property_weaken tbl tbl' k :
  tbl ⊆ tbl' → has_property tbl k → has_property tbl' k.
Proof.
  intros Hsub [[v Hv]|Hi]; [left|by right].
  exists v. by eapply lookup_weaken.
Qed.

Lemma get_own tbl k s : tbl !! k = Some s → get tbl k = Some (Str s).
Proof. intros H. unfold get. by rewrite H. Qed.

Lemma get_Str tbl k s : get tbl k = Some (Str s) ↔ tbl !! k = Some s.
Proof.
  unfold get. destruct (tbl !! k) as [s'|].
  - split; by intros [= ->].
  - destruct (decide (inherited k)); split; done.
Qed.

Lemma get_None tbl k : get tbl k = None ↔ tbl !! k = None ∧ ¬ inherited k.
Proof.
  unfold get. destruct (tbl !! k) as [s|].
  - split; [done|]. by intros [? _].
  - destruct (decide (inherited k)); split; try done. by intros [_ ?].
Qed.

Lemma get_absent tbl k : tbl !! k = None → ¬ inherited k → get tbl k = None.
Proof. intros. by apply get_None. Qed.

Lemma get_inherited tbl k :
  tbl !! k = None → inherited k → get tbl k = Some (Member k).
Proof. intros H Hi. unfold get. by rewrite H, decide_True. Qed.

Lemma get_is_Some tbl k : is_Some (get tbl k) ↔ has_property tbl k.
Proof.
  unfold get, has_property. destruct (tbl !! k) as [s|].
  - split; eauto.
  - destruct (decide (inherited k)); split; eauto.
    + by intros [? ?].
    + intros [[? ?]|?]; done.
Qed.

Lemma proto_inherited : inherited "__proto__".
Proof. by apply (bool_decide_unpack _). Qed.

Lemma put_insert k v tbl : k ≠ "__proto__" → put k v tbl = <[k := v]> tbl.
Proof. intros H. unfold put. by rewrite decide_False. Qed.

Lemma put_fresh k v tbl : ¬ inherited k → put k v tbl = <[k := v]> tbl.
Proof. intros H. apply put_insert. intros ->. apply H, proto_inherited. Qed.

(** ** Guarded writes *)

Section set_if_absent.
Context (k v : string) (tbl : gmap string string).

Lemma set_if_absent_present : has_property tbl k → set_if_absent k v tbl = tbl.
Proof. intros H. unfold set_if_absent. by rewrite decide_True. Qed.

Lemma set_if_absent_fresh :
  tbl !! k = None → ¬ inherited k → set_if_absent k v tbl = <[k := v]> tbl.
Proof.
  intros H Hi. unfold set_if_absent. rewrite decide_False, put_fresh; [done..|].
  intros [[? ?]|?]; [congruence|done].
Qed.

Lemma set_if_absent_union :
  ¬ inherited k → set_if_absent k v tbl = tbl ∪ {[k := v]}.
Proof.
  intros Hi. apply map_eq; intros j. rewrite lookup_union.
  destruct (tbl !! k) as [w|] eqn:Hk.
  - rewrite set_if_absent_present by (by eapply has_property_own).
    destruct (decide (k = j)) as [<-|Hne].
    + by rewrite Hk, lookup_singleton_eq.
    + rewrite lookup_singleton_ne by done. by destruct (tbl !! j).
  - rewrite set_if_absent_fresh by done.
    destruct (decide (k = j)) as [<-|Hne].
    + by rewrite lookup_insert_eq, Hk, lookup_singleton_eq.
    + rewrite lookup_insert_ne, lookup_singleton_ne by done.
      by destruct (tbl !! j).
Qed.

End set_if_absent.

Lemma merge_first_cons k v rec tbl :
  merge_first ((k, v) :: rec) tbl = merge_first rec (set_if_absent k v tbl).
Proof. done. Qed.

(** A loop of guarded writes is a left-biased union with the map whose
    entry for a key is the first one enumerated, the names of inherited
    members left out. *)
Lemma merge_first_union rec tbl :
  merge_first rec tbl = tbl ∪ list_to_map (own_entries rec).
Proof.
  revert tbl. unfold own_entries.
  induction rec as [|[k v] rec IH]; intros tbl.
  - rewrite filter_nil. simpl. by rewrite (right_id_L ∅ (∪)).
  - rewrite merge_first_cons, IH, filter_cons. cbn [fst].
    destruct (decide (inherited k)) as [Hi|Hi].
    + rewrite decide_False by tauto.
      by rewrite set_if_absent_present by (by right).
    + rewrite decide_True by done. simpl.
      rewrite set_if_absent_union, <- (assoc_L (∪)) by done.
      f_equal. by rewrite insert_union_singleton_l.
Qed.

Lemma merge_first_subseteq rec tbl : tbl ⊆ merge_first rec tbl.
Proof. rewrite merge_first_union. apply map_union_subseteq_l. Qed.

Lemma merge_first_lookup_present rec tbl k v :
  tbl !! k = Some v → merge_first rec tbl !! k = Some v.
Proof.
  intros H. by apply (lookup_weaken _ _ _ _ H), merge_first_subseteq.
Qed.

Lemma own_entries_lookup rec k :
  ¬ inherited k →
  (list_to_map (own_entries rec) : gmap string string) !! k
  = (list_to_map rec : gmap string string) !! k.
Proof.
  intros Hi. unfold own_entries.
  induction rec as [|[k' v] rec IH]; [done|].
  rewrite filter_cons. cbn [fst].
  destruct (decide (¬ inherited k')) as [Hk'|Hk']; simpl.
  - destruct (decide (k' = k)) as [->|Hne].
    + by rewrite !lookup_insert_eq.
    + by rewrite !lookup_insert_ne.
  - rewrite lookup_insert_ne; [done|]. intros ->. tauto.
Qed.

Lemma own_entries_lookup_inherited rec k :
  inherited k → (list_to_map (own_entries rec) : gmap string string) !! k = None.
Proof.
  intros Hi. apply not_elem_of_list_to_map_1. unfold own_entries.
  intros Hin. apply list_elem_of_fmap in Hin as ([k' v] & -> & Hin).
  apply list_elem_of_filter in Hin as [Hk' _]. by apply Hk'.
Qed.

Lemma merge_first_lookup_fresh rec tbl k :
  tbl !! k = None → ¬ inherited k →
  merge_first rec tbl !! k = (list_to_map rec : gmap string string) !! k.
Proof.
  intros H Hi. rewrite merge_first_union, <- own_entries_lookup by done.
  by apply lookup_union_r.
Qed.

Lemma merge_first_lookup_inherited rec tbl k :
  inherited k → merge_first rec tbl !! k = tbl !! k.
Proof.
  intros Hi. rewrite merge_first_union.
  destruct (tbl !! k) as [v|] eqn:Hk.
  - by apply lookup_union_Some_l.
  - rewrite lookup_union_r by done. by apply own_entries_lookup_inherited.
Qed.

Lemma merge_first_has_property rec tbl k v :
  (k, v) ∈ rec → has_property (merge_first rec tbl) k.
Proof.
  intros Hin. destruct (decide (inherited k)) as [Hi|Hi]; [by right|left].
  destruct (tbl !! k) as [w|] eqn:Hk.
  { exists w. by apply merge_first_lookup_present. }
  rewrite merge_first_lookup_fresh by done.
  apply elem_of_dom. rewrite dom_list_to_map_L.
  apply elem_of_list_to_set, list_elem_of_fmap. by exists (k, v).
Qed.

Lemma merge_first_absorbed rec tbl :
  (∀ k v, (k, v) ∈ rec → has_property tbl k) → merge_first rec tbl = tbl.
Proof.
  revert tbl.
  induction rec as [|[k v] rec IH]; intros tbl H; [done|].
  rewrite merge_first_cons, set_if_absent_present by (eapply H; left).
  apply IH. intros k' v' Hin. eapply H. by right.
Qed.

(** The first key enumerated with value [v] is the one a table keyed by the
    values ends up with. *)
Lemma list_to_map_swap_lookup rec v :
  (list_to_map (prod_swap <$> rec) : gmap string string) !! v
  = head (keys_of_value v rec).
Proof.
  unfold keys_of_value.
  induction rec as [|[k w] rec IH]; simpl; [by rewrite lookup_empty|].
  destruct (decide (w = v)) as [->|Hne].
  - rewrite lookup_insert_eq, filter_cons_True by done. done.
  - rewrite lookup_insert_ne, filter_cons_False by done. done.
Qed.

Lemma keys_of_value_elem_of rec k v :
  k ∈ keys_of_value v rec → (k, v) ∈ rec.
Proof.
  unfold keys_of_value. intros H.
  apply list_elem_of_fmap in H as ([k' v'] & -> & H).
  apply list_elem_of_filter in H as [Hv H]. simpl in *. by subst.
Qed.

(** ** The loops of [registOne], table by table *)

Lemma foldl_regist_nametooid rec db :
  foldl regist_nametooid db rec =
  {| _uuid := _uuid db;
     _dbOID2NAME := merge_first (prod_swap <$> rec) (_dbOID2NAME db);
     _dbNAME2OID := merge_first rec (_dbNAME2OID db);
     _dbSHORT2NAME := _dbSHORT2NAME db;
     _dbNAME2SHORT := _dbNAME2SHORT db;
     _dbALIAS := _dbALIAS db;
     _setlist := _setlist db |}.
Proof.
  revert db. induction rec as [|[name oid] rec IH]; intros db; simpl.
  - by destruct db.
  - by rewrite IH.
Qed.

Lemma foldl_regist_shorttoname rec db :
  foldl regist_shorttoname db rec =
  {| _uuid := _uuid db;
     _dbOID2NAME := _dbOID2NAME db;
     _dbNAME2OID := _dbNAME2OID db;
     _dbSHORT2NAME := merge_first rec (_dbSHORT2NAME db);
     _dbNAME2SHORT := merge_first (prod_swap <$> rec) (_dbNAME2SHORT db);
     _dbALIAS := _dbALIAS db;
     _setlist := _setlist db |}.
Proof.
  revert db. induction rec as [|[short name] rec IH]; intros db; simpl.
  - by destruct db.
  - by rewrite IH.
Qed.

Lemma foldl_regist_alias rec db :
  foldl regist_alias db rec =
  {| _uuid := _uuid db;
     _dbOID2NAME := _dbOID2NAME db;
     _dbNAME2OID := _dbNAME2OID db;
     _dbSHORT2NAME := _dbSHORT2NAME db;
     _dbNAME2SHORT := _dbNAME2SHORT db;
     _dbALIAS := merge_first rec (_dbALIAS db);
     _setlist := _setlist db |}.
Proof.
  revert db. induction rec as [|[alias origin] rec IH]; intros db; simpl.
  - by destruct db.
  - by rewrite IH.
Qed.

Lemma registOne_skipped dataset db :
  OIDDataSet.setname dataset ∈ _setlist db → registOne dataset db = db.
Proof. intros H. unfold registOne. by rewrite decide_True. Qed.

Lemma registOne_merged dataset db :
  OIDDataSet.setname dataset ∉ _setlist db →
  registOne dataset db =
  {| _uuid := _uuid db;
     _dbOID2NAME :=
       merge_first (prod_swap <$> OIDDataSet.nametooid dataset) (_dbOID2NAME db);
     _dbNAME2OID := merge_first (OIDDataSet.nametooid dataset) (_dbNAME2OID db);
     _dbSHORT2NAME :=
       merge_first (entries (OIDDataSet.shorttoname dataset)) (_dbSHORT2NAME db);
     _dbNAME2SHORT :=
       merge_first (prod_swap <$> entries (OIDDataSet.shorttoname dataset))
                   (_dbNAME2SHORT db);
     _dbALIAS := merge_first (entries (OIDDataSet.alias dataset)) (_dbALIAS db);
     _setlist := _setlist db |}.
Proof.
  intros H. unfold registOne. rewrite decide_False by done.
  rewrite foldl_regist_nametooid.
  destruct (OIDDataSet.shorttoname dataset) as [shorts|],
           (OIDDataSet.alias dataset) as [aliases|]; simpl;
    rewrite ?foldl_regist_shorttoname, ?foldl_regist_alias; done.
Qed.

Lemma regist_nil db : regist [] db = db.
Proof. done. Qed.

Lemma regist_cons dataset datasetList db :
  regist (dataset :: datasetList) db = regist datasetList (registOne dataset db).
Proof. done. Qed.

Lemma regist_app l1 l2 db : regist (l1 ++ l2) db = regist l2 (regist l1 db).
Proof. unfold regist. apply foldl_app. Qed.

(** ** Registration only adds entries *)

Lemma extends_refl db : extends db db.
Proof. by split. Qed.

Lemma extends_trans db1 db2 db3 :
  extends db1 db2 → extends db2 db3 → extends db1 db3.
Proof.
  intros [Hu1 Ht1 Hs1] [Hu2 Ht2 Hs2]. split.
  - congruence.
  - intros t. etrans; [apply Ht1|apply Ht2].
  - congruence.
Qed.

Lemma registOne_extends dataset db : extends db (registOne dataset db).
Proof.
  destruct (decide (OIDDataSet.setname dataset ∈ _setlist db)) as [Hin|Hnin].
  - rewrite registOne_skipped by done. apply extends_refl.
  - rewrite registOne_merged by done.
    split; [done| |done].
    intros []; simpl; apply merge_first_subseteq.
Qed.

Lemma regist_extends datasetList db : extends db (regist datasetList db).
Proof.
  revert db. induction datasetList as [|dataset l IH]; intros db.
  - apply extends_refl.
  - rewrite regist_cons. eapply extends_trans; [apply registOne_extends|apply IH].
Qed.

(** [_setlist] is read by [registOne] and written by nothing. *)
Lemma regist_setlist datasetList db :
  _setlist (regist datasetList db) = _setlist db.
Proof. apply regist_extends. Qed.

Lemma regist_uuid datasetList db :
  _uuid (regist datasetList db) = _uuid db.
Proof. apply regist_extends. Qed.

Lemma extends_lookup t db db' k v :
  extends db db' → table_of t db !! k = Some v → table_of t db' !! k = Some v.
Proof. intros [_ Ht _] Hk. by eapply lookup_weaken. Qed.

(** ** Merging a data set whose keys are all present changes nothing *)

Lemma covered_extends dataset db db' :
  covered dataset db → extends db db' → covered dataset db'.
Proof.
  intros [Hn Hs Ha] [_ Ht _].
  assert (∀ t k, has_property (table_of t db) k → has_property (table_of t db') k)
    as Hmono.
  { intros t k. apply has_property_weaken, Ht. }
  split.
  - intros name oid Hin. destruct (Hn _ _ Hin) as [H1 H2]. split.
    + by apply (Hmono nameToOid).
    + by apply (Hmono oidToName).
  - intros short name Hin. destruct (Hs _ _ Hin) as [H1 H2]. split.
    + by apply (Hmono shortToName).
    + by apply (Hmono nameToShort).
  - intros alias origin Hin. by apply (Hmono aliasToName), (Ha _ _ Hin).
Qed.

Lemma elem_of_prod_swap (rec : list (string * string)) k v :
  (k, v) ∈ prod_swap <$> rec → (v, k) ∈ rec.
Proof.
  intros H. apply list_elem_of_fmap in H as ([a b] & Heq & H).
  simpl in Heq. by simplify_eq.
Qed.

Lemma registOne_covered dataset db :
  OIDDataSet.setname dataset ∉ _setlist db →
  covered dataset (registOne dataset db).
Proof.
  intros Hnin. rewrite registOne_merged by done. split; simpl.
  - intros name oid Hin. split.
    + by eapply merge_first_has_property.
    + eapply merge_first_has_property, list_elem_of_fmap. by exists (name, oid).
  - intros short name Hin. split.
    + by eapply merge_first_has_property.
    + eapply merge_first_has_property, list_elem_of_fmap. by exists (short, name).
  - intros alias origin Hin. by eapply merge_first_has_property.
Qed.

Lemma registOne_absorbed dataset db :
  covered dataset db → registOne dataset db = db.
Proof.
  intros [Hn Hs Ha].
  destruct (decide (OIDDataSet.setname dataset ∈ _setlist db)) as [Hin|Hnin].
  { by apply registOne_skipped. }
  rewrite registOne_merged by done.
  rewrite !merge_first_absorbed; [by destruct db|..].
  - intros alias origin Hin. by eapply Ha.
  - intros name short Hin%elem_of_prod_swap. by eapply Hs.
  - intros short name Hin. by eapply Hs.
  - intros name oid Hin. by eapply Hn.
  - intros oid name Hin%elem_of_prod_swap. by eapply Hn.
Qed.

Lemma regist_absorbed datasetList db :
  (∀ dataset, dataset ∈ datasetList → registOne dataset db = db) →
  regist datasetList db = db.
Proof.
  induction datasetList as [|dataset l IH]; intros H; [done|].
  rewrite regist_cons, H by left. apply IH. intros d Hd. apply H. by right.
Qed.

(** After a call of [regist], every data set of the list is absorbed. *)
Lemma regist_member_absorbed datasetList dataset db :
  dataset ∈ datasetList →
  registOne dataset (regist datasetList db) = regist datasetList db.
Proof.
  intros Hin. apply list_elem_of_split in Hin as (l1 & l2 & ->).
  rewrite regist_app, regist_cons.
  set (db1 := regist l1 db).
  destruct (decide (OIDDataSet.setname dataset ∈ _setlist db1)) as [Hs|Hs].
  - apply registOne_skipped.
    by rewrite regist_setlist, registOne_skipped.
  - apply registOne_absorbed.
    eapply covered_extends; [by apply registOne_covered|apply regist_extends].
Qed.

(** ** The test suite of the repository *)

Example test_OIDDataBase :
  UseUndef.oidtoname oiddb "2.5.29.15" false = Some "keyUsage"
  ∧ UseUndef.shorttoname oiddb "CN" false = Some "commonName"
  ∧ UseUndef.nametoshort oiddb "commonName" false = Some "CN"
  ∧ UseUndef.oidtoshort oiddb "2.5.4.6" false = Some "C"
  ∧ shorttooid oiddb "C" = Some "2.5.4.6"
  ∧ aliasto oiddb "P-256" = Some "prime256v1".
Proof. by vm_compute. Qed.

Example test_nametooid :
  nametooid oiddb "keyUsage" = Some "2.5.29.15"
  ∧ nametooid oiddb "P-256" = Some "1.2.840.10045.3.1.7"
  ∧ nametooid oiddb "P-521" = Some "1.3.132.0.35".
Proof. by vm_compute. Qed.

(** ** Set names *)

(** C1 (defect of the code).  The specification says that a data set's
    set name is recorded when the set is merged, so that a later data set
    offered under the same name is skipped.  [registOne] tests [_setlist]
    but never adds to it: after [regist([MYOIDSET])] the list of set names
    is still empty, and [regist([MYOIDSET_AGAIN])], offered under the same
    set name "myoid", is merged: its name resolves afterwards. *)
Theorem registOne_setname_not_recorded :
  _setlist (regist [MYOIDSET] new_OIDDataBase) = []
  ∧ OIDDataSet.setname MYOIDSET_AGAIN = OIDDataSet.setname MYOIDSET
  ∧ nametooid (regist [MYOIDSET] new_OIDDataBase) "my-oid-two" = None
  ∧ nametooid (regist [MYOIDSET_AGAIN] (regist [MYOIDSET] new_OIDDataBase))
              "my-oid-two" = Some "1.2.3.4.5.2".
Proof. by vm_compute. Qed.

(** The half of the sentence that the code does implement: a data set whose
    set name is in [_setlist] leaves the registry as it is. *)
Lemma regist_known_setname_skipped dataset db :
  OIDDataSet.setname dataset ∈ _setlist db → regist [dataset] db = db.
Proof. intros H. by rewrite regist_cons, regist_nil, registOne_skipped. Qed.

(** ** First writer wins *)

(** C2.  A key that has a value in one of the five tables keeps that value
    through every later call of [regist], and through the rest of the call
    that wrote it: [l1] are the data sets merged so far, [l2] the ones that
    follow, in the same call or in a later one.  [regist] is a total
    function: duplicates raise nothing. *)
Theorem regist_first_writer_wins (t : table) (db : OIDDataBase)
    (l1 l2 : list OIDDataSet.t) (k v : string) :
  table_of t (regist l1 db) !! k = Some v →
  table_of t (regist l2 (regist l1 db)) !! k = Some v
  ∧ table_of t (regist (l1 ++ l2) db) !! k = Some v.
Proof.
  intros H. rewrite regist_app.
  split; eapply extends_lookup; eauto using regist_extends.
Qed.

Lemma regist_first_writer_wins_witness :
  table_of nameToOid (regist [CLASHSET] oiddb) !! "keyUsage" = Some "2.5.29.15"
  ∧ table_of nameToOid
      (regist ([OIDSET_CRYPTO; OIDSET_X509] ++ [CLASHSET]) new_OIDDataBase)
      !! "keyUsage" = Some "2.5.29.15".
Proof.
  apply (regist_first_writer_wins nameToOid new_OIDDataBase
           [OIDSET_CRYPTO; OIDSET_X509] [CLASHSET]).
  vm_compute. reflexivity.
Defined.

(** ** Round trip between names and OIDs *)

(** C3, counterexample.  A pair of a merged data set does not always
    resolve in both directions: [CLASHSET] is merged after the bundled sets, its pair
    [("keyUsage", "1.2.3.4.5.1")] loses to the OID registered first for
    that name, and its pair [("my-key-usage", "2.5.29.15")] loses to the
    name registered first for that OID. *)
Lemma roundtrip_fails_for_taken_keys :
  (OIDDataSet.setname CLASHSET ∉ _setlist oiddb)
  ∧ ("keyUsage", "1.2.3.4.5.1") ∈ OIDDataSet.nametooid CLASHSET
  ∧ nametooid (regist [CLASHSET] oiddb) "keyUsage" ≠ Some "1.2.3.4.5.1"
  ∧ ("my-key-usage", "2.5.29.15") ∈ OIDDataSet.nametooid CLASHSET
  ∧ UseUndef.oidtoname (regist [CLASHSET] oiddb) "2.5.29.15" false
    ≠ Some "my-key-usage"
  ∧ Plain.oidtoname (regist [CLASHSET] oiddb) "2.5.29.15" ≠ Some "my-key-usage".
Proof.
  split_and!.
  - unfold oiddb. rewrite regist_setlist. apply not_elem_of_nil.
  - apply list_elem_of_here.
  - by vm_compute.
  - apply list_elem_of_further, list_elem_of_here.
  - by vm_compute.
  - by vm_compute.
Qed.

(** C3, amended.  Let [dataset] be merged after the data sets [l1] and
    before [l2], and let [(name, oid)] be a pair of its [nametooid] mapping
    such that neither [name] nor [oid] is the name of a member inherited
    from [Object.prototype] and, when [dataset] is merged, [name] is not
    yet a key of [nameToOid] and [oid] is not yet a key of [oidToName],
    [name] is the first name the mapping enumerates with that OID, and
    [name] is not an alias in the resulting registry.  Then
    [nametooid(name)] is [oid] and [oidtoname(oid)] is [name], in both
    revisions and both modes. *)
Theorem roundtrip_first_registered (db : OIDDataBase)
    (l1 l2 : list OIDDataSet.t) (dataset : OIDDataSet.t)
    (name oid : string) (useUndef : bool) :
  OIDDataSet.setname dataset ∉ _setlist db →
  wf_record (OIDDataSet.nametooid dataset) →
  (name, oid) ∈ OIDDataSet.nametooid dataset →
  head (keys_of_value oid (OIDDataSet.nametooid dataset)) = Some name →
  ¬ inherited name →
  ¬ inherited oid →
  _dbNAME2OID (regist l1 db) !! name = None →
  _dbOID2NAME (regist l1 db) !! oid = None →
  _dbALIAS (regist (l1 ++ dataset :: l2) db) !! name = None →
  nametooid (regist (l1 ++ dataset :: l2) db) name = Some oid
  ∧ Plain.oidtoname (regist (l1 ++ dataset :: l2) db) oid = Some name
  ∧ UseUndef.oidtoname (regist (l1 ++ dataset :: l2) db) oid useUndef = Some name.
Proof.
  intros Hset Hwf Hin Hfirst Hiname Hioid Hname Hoid Halias.
  set (final := regist (l1 ++ dataset :: l2) db) in *.
  assert (extends (registOne dataset (regist l1 db)) final) as Hext.
  { subst final. rewrite regist_app, regist_cons. apply regist_extends. }
  assert (_dbNAME2OID final !! name = Some oid) as Hn.
  { apply (extends_lookup nameToOid _ _ _ _ Hext). simpl.
    rewrite registOne_merged by (by rewrite regist_setlist). simpl.
    rewrite merge_first_lookup_fresh by done.
    by apply elem_of_list_to_map_1. }
  assert (_dbOID2NAME final !! oid = Some name) as Ho.
  { apply (extends_lookup oidToName _ _ _ _ Hext). simpl.
    rewrite registOne_merged by (by rewrite regist_setlist). simpl.
    rewrite merge_first_lookup_fresh by done.
    by rewrite list_to_map_swap_lookup. }
  unfold nametooid, Plain.oidtoname, UseUndef.oidtoname. cbn [to_key].
  rewrite (get_absent _ _ Halias Hiname). cbn [to_key].
  by rewrite (get_own _ _ _ Hn), (get_own _ _ _ Ho).
Qed.

Lemma roundtrip_first_registered_witness :
  nametooid (regist ([OIDSET_CRYPTO] ++ OIDSET_X509 :: [CLASHSET]) new_OIDDataBase)
            "keyUsage" = Some "2.5.29.15"
  ∧ Plain.oidtoname
      (regist ([OIDSET_CRYPTO] ++ OIDSET_X509 :: [CLASHSET]) new_OIDDataBase)
      "2.5.29.15" = Some "keyUsage"
  ∧ UseUndef.oidtoname
      (regist ([OIDSET_CRYPTO] ++ OIDSET_X509 :: [CLASHSET]) new_OIDDataBase)
      "2.5.29.15" true = Some "keyUsage".
Proof.
  apply (roundtrip_first_registered new_OIDDataBase [OIDSET_CRYPTO] [CLASHSET]
           OIDSET_X509 "keyUsage" "2.5.29.15" true).
  - apply not_elem_of_nil.
  - apply (bool_decide_unpack _). vm_compute. exact I.
  - apply (bool_decide_unpack _). vm_compute. exact I.
  - vm_compute. reflexivity.
  - apply (bool_decide_unpack _). vm_compute. exact I.
  - apply (bool_decide_unpack _). vm_compute. exact I.
  - vm_compute. reflexivity.
  - vm_compute. reflexivity.
  - vm_compute. reflexivity.
Defined.

(** ** Lookups *)

(** C4, counterexample.  "1.2.3.4" is not a key of [oidToName] in the
    registry of the test suite, and [oidtoname] of src/index.mts returns
    [undefined] for it, not the input; "constructor" is not a key either,
    and [oidtoname] of the revision with the flag returns the inherited
    member for it, with and without the flag. *)
Lemma oidtoname_not_always_echo :
  _dbOID2NAME oiddb !! "1.2.3.4" = None
  ∧ Plain.oidtoname oiddb "1.2.3.4" = None
  ∧ _dbOID2NAME oiddb !! "constructor" = None
  ∧ UseUndef.oidtoname oiddb "constructor" false = Some (Member "constructor")
  ∧ UseUndef.oidtoname oiddb "constructor" true = Some (Member "constructor").
Proof. by vm_compute. Qed.

(** C4, amended.  For an OID that is neither a key of [oidToName] nor the
    name of a member inherited from [Object.prototype], [oidtoname] of the
    revision with the [useUndef] flag returns the input unchanged by
    default and [undefined] when the flag is set, and [oidtoname] of
    src/index.mts, which has no flag, returns [undefined].  For a
    registered OID both revisions return the stored name, whatever the
    flag. *)
Theorem oidtoname_fallback (db : OIDDataBase) (oid : string) :
  (_dbOID2NAME db !! oid = None → ¬ inherited oid →
     UseUndef.oidtoname db oid false = Some oid
     ∧ UseUndef.oidtoname db oid true = None
     ∧ Plain.oidtoname db oid = None)
  ∧ (∀ (name : string) useUndef, _dbOID2NAME db !! oid = Some name →
     UseUndef.oidtoname db oid useUndef = Some name
     ∧ Plain.oidtoname db oid = Some name).
Proof.
  unfold UseUndef.oidtoname, Plain.oidtoname. cbn [to_key]. split.
  - intros Ho Hi. by rewrite (get_absent _ _ Ho Hi).
  - intros name useUndef Ho. by rewrite (get_own _ _ _ Ho).
Qed.

Lemma oidtoname_fallback_witness :
  (UseUndef.oidtoname oiddb "1.2.3.4" false = Some "1.2.3.4"
   ∧ UseUndef.oidtoname oiddb "1.2.3.4" true = None
   ∧ Plain.oidtoname oiddb "1.2.3.4" = None)
  ∧ (UseUndef.oidtoname oiddb "2.5.29.15" true = Some "keyUsage"
     ∧ Plain.oidtoname oiddb "2.5.29.15" = Some "keyUsage").
Proof.
  split.
  - apply (proj1 (oidtoname_fallback oiddb "1.2.3.4")).
    + vm_compute. reflexivity.
    + apply (bool_decide_unpack _). vm_compute. exact I.
  - apply (proj2 (oidtoname_fallback oiddb "2.5.29.15") "keyUsage" true).
    vm_compute. reflexivity.
Defined.










(** ** Idempotence *)

(** C8.  Calling [regist] a second time with the same list leaves the
    registry, hence each of the five tables, as the first call left it. *)
Theorem regist_idempotent (datasetList : list OIDDataSet.t) (db : OIDDataBase) :
  regist datasetList (regist datasetList db) = regist datasetList db
  ∧ ∀ t, table_of t (regist datasetList (regist datasetList db))
         = table_of t (regist datasetList db).
Proof.
  assert (regist datasetList (regist datasetList db) = regist datasetList db)
    as Heq.
  { apply regist_absorbed. intros dataset Hin.
    by apply regist_member_absorbed. }
  split; [done|]. intros t. by rewrite Heq.
Qed.

(** ** Short names *)




(** ** The uuid *)

Lemma step_uuid this c :
  ∃ this', step (Some this) c = Some this' ∧ uuid this' = uuid this.
Proof.
  destruct c as [randomUUID| |datasetList|method arg]; simpl; eauto.
  eexists. split; [done|]. apply regist_uuid.
Qed.

Lemma run_uuid calls this :
  ∃ this', run calls (Some this) = Some this' ∧ uuid this' = uuid this.
Proof.
  unfold run. revert this.
  induction calls as [|c calls IH]; intros this; simpl; [eauto|].
  destruct (step_uuid this c) as (this1 & Hstep & Hu1).
  destruct (IH this1) as (this2 & Hrun & Hu2).
  exists this2. rewrite <- Hstep in Hrun. split; [done|congruence].
Qed.

(** C10.  The uuid is assigned when the getter [instance] creates the
    object, from the value [crypto.randomUUID()] returns then; later reads
    of [instance], calls of [regist] and lookups leave it as it is, so
    every read of [uuid] after the creation gives that value. *)
Theorem uuid_assigned_once (randomUUID : string) (calls : list call) :
  uuid <$> step None (GetInstance randomUUID) = Some randomUUID
  ∧ uuid <$> run calls (step None (GetInstance randomUUID)) = Some randomUUID
  ∧ ∀ this, uuid <$> run calls (Some this) = Some (uuid this).
Proof.
  split; [done|].
  assert (∀ this, uuid <$> run calls (Some this) = Some (uuid this)) as H.
  { intros this. destruct (run_uuid calls this) as (this' & -> & Hu).
    simpl. by rewrite Hu. }
  split; [|done]. simpl. by rewrite H.
Qed.

(** * Further properties of the registry *)

(** ** What a merge writes *)

Lemma list_to_map_first_value rec k :
  (list_to_map rec : gmap string string) !! k = first_value k rec.
Proof.
  unfold first_value.
  induction rec as [|[k' v] rec IH]; simpl; [by rewrite lookup_empty|].
  destruct (decide (k' = k)) as [->|Hne].
  - by rewrite lookup_insert_eq, filter_cons_True.
  - by rewrite lookup_insert_ne, filter_cons_False.
Qed.

Lemma merge_first_lookup rec tbl k :
  merge_first rec tbl !! k
  = match tbl !! k with
    | Some v => Some v
    | None => if decide (inherited k) then None else first_value k rec
    end.
Proof.
  destruct (tbl !! k) as [v|] eqn:Hk.
  - by apply merge_first_lookup_present.
  - destruct (decide (inherited k)) as [Hi|Hi].
    + by rewrite merge_first_lookup_inherited.
    + by rewrite merge_first_lookup_fresh, list_to_map_first_value.
Qed.

Lemma first_value_is_Some rec k :
  is_Some (first_value k rec) ↔ k ∈ rec.*1.
Proof.
  rewrite <- list_to_map_first_value, <- elem_of_dom, dom_list_to_map_L.
  apply elem_of_list_to_set.
Qed.

Lemma registOne_table t dataset db :
  OIDDataSet.setname dataset ∉ _setlist db →
  table_of t (registOne dataset db)
  = merge_first (pairs_written t dataset) (table_of t db).
Proof. intros H. rewrite registOne_merged by done. by destruct t. Qed.

Lemma registOne_setlist dataset db :
  _setlist (registOne dataset db) = _setlist db.
Proof. apply registOne_extends. Qed.

Lemma registOne_keys t dataset db k :
  is_Some (table_of t (registOne dataset db) !! k)
  ↔ is_Some (table_of t db !! k)
    ∨ ((OIDDataSet.setname dataset ∉ _setlist db)
       ∧ k ∈ (pairs_written t dataset).*1 ∧ ¬ inherited k).
Proof.
  destruct (decide (OIDDataSet.setname dataset ∈ _setlist db)) as [Hin|Hnin].
  - rewrite registOne_skipped by done.
    split; [by left|]. by intros [H|[Hs _]].
  - rewrite registOne_table, merge_first_lookup by done.
    rewrite <- first_value_is_Some.
    destruct (table_of t db !! k) as [v|]; [split; [by left|eauto]|].
    destruct (decide (inherited k)) as [Hi|Hi]; split.
    + by intros [? ?].
    + intros [[? ?]|(_ & _ & ?)]; done.
    + by right.
    + intros [[? ?]|(_ & H & _)]; done.
Qed.

(** X1.  Two successive calls of [regist] have the effect of one call with
    the concatenated array, on any process state. *)
Theorem regist_calls_compose (l1 l2 : list OIDDataSet.t)
    (st : option OIDDataBase) :
  run [Regist l1; Regist l2] st = run [Regist (l1 ++ l2)] st.
Proof.
  destruct st as [this|]; simpl; [|done]. by rewrite regist_app.
Qed.

(** X2.  The keys of a table after [regist] are the keys it had before
    together with the keys offered to it by the data sets of the list
    that are not skipped, the names of the members inherited from
    [Object.prototype] excepted: these are never written, every other
    offered key is registered, and nothing else is. *)
Theorem regist_keys (t : table) (datasetList : list OIDDataSet.t)
    (db : OIDDataBase) (k : string) :
  is_Some (table_of t (regist datasetList db) !! k)
  ↔ is_Some (table_of t db !! k)
    ∨ ∃ dataset, dataset ∈ datasetList
        ∧ (OIDDataSet.setname dataset ∉ _setlist db)
        ∧ k ∈ (pairs_written t dataset).*1
        ∧ ¬ inherited k.
Proof.
  revert db. induction datasetList as [|d l IH]; intros db.
  - rewrite regist_nil. split; [by left|].
    intros [H|(ds & Hin & _)]; [done|]. by apply elem_of_nil in Hin.
  - rewrite regist_cons, IH, registOne_keys, registOne_setlist. split.
    + intros [[H|(Hs & Hk & Hi)]|(ds & Hin & Hs & Hk & Hi)].
      * by left.
      * right. exists d. split; [left|done].
      * right. exists ds. split; [by right|done].
    + intros [H|(ds & Hin & Hs & Hk & Hi)].
      * by left; left.
      * apply elem_of_cons in Hin as [->|Hin].
        -- left. by right.
        -- right. by exists ds.
Qed.

(** X3.  What a merged data set leaves under a key of a table: the value
    the key had before when it had one; otherwise nothing when the key is
    the name of a member inherited from [Object.prototype]; otherwise the
    value of the first pair the data set offers for that key, if any. *)
Theorem registOne_lookup (t : table) (dataset : OIDDataSet.t)
    (db : OIDDataBase) (k : string) :
  OIDDataSet.setname dataset ∉ _setlist db →
  table_of t (registOne dataset db) !! k
  = match table_of t db !! k with
    | Some v => Some v
    | None =>
        if decide (inherited k) then None
        else first_value k (pairs_written t dataset)
    end.
Proof. intros H. by rewrite registOne_table, merge_first_lookup. Qed.

Lemma registOne_lookup_witness :
  table_of oidToName (registOne CLASHSET oiddb) !! "2.5.29.15"
  = match table_of oidToName oiddb !! "2.5.29.15" with
    | Some v => Some v
    | None =>
        if decide (inherited "2.5.29.15") then None
        else first_value "2.5.29.15" (pairs_written oidToName CLASHSET)
    end.
Proof.
  apply (registOne_lookup oidToName CLASHSET oiddb "2.5.29.15").
  unfold oiddb. rewrite regist_setlist. apply not_elem_of_nil.
Defined.

(** A key that is the name of an inherited member is never written. *)
Example registOne_lookup_constructor :
  table_of aliasToName
    (registOne (OIDDataSet.make "ctor" [] None (Some [("constructor", "x")]))
               new_OIDDataBase) !! "constructor" = None.
Proof. by vm_compute. Qed.

(** ** The list of set names *)

Lemma step_setlist st c :
  (∀ this, st = Some this → _setlist this = []) →
  ∀ this, step st c = Some this → _setlist this = [].
Proof.
  intros Hst this.
  destruct c as [randomUUID| |datasetList|method arg]; simpl.
  - destruct st as [this0|]; simpl.
    + intros [= <-]. by apply Hst.
    + by intros [= <-].
  - apply Hst.
  - destruct st as [this0|]; simpl; [|done].
    intros [= <-]. rewrite regist_setlist. by apply Hst.
  - apply Hst.
Qed.

(** X4.  On every registry a process can reach (the getter creates it, then
    any calls follow) the list of set names is empty, so [registOne] never
    takes its early return: for every data set it runs its three loops. *)
Theorem reachable_setlist_empty (calls : list call) (this : OIDDataBase) :
  run calls None = Some this →
  _setlist this = []
  ∧ ∀ dataset,
      registOne dataset this
      = for_in_optional regist_alias (OIDDataSet.alias dataset)
          (for_in_optional regist_shorttoname (OIDDataSet.shorttoname dataset)
             (foldl regist_nametooid this (OIDDataSet.nametooid dataset))).
Proof.
  intros Hrun.
  assert (_setlist this = []) as Hnil.
  { revert this Hrun. unfold run.
    induction calls as [|c calls IH] using rev_ind; intros this.
    - done.
    - rewrite foldl_app. simpl. by apply step_setlist. }
  split; [done|]. intros dataset. unfold registOne.
  rewrite decide_False; [done|]. rewrite Hnil. apply not_elem_of_nil.
Qed.

Lemma reachable_setlist_empty_witness :
  _setlist (regist [MYOIDSET_AGAIN]
              (regist [MYOIDSET] (instance "uuid-1" None).1)) = []
  ∧ ∀ dataset,
      registOne dataset
        (regist [MYOIDSET_AGAIN] (regist [MYOIDSET] (instance "uuid-1" None).1))
      = for_in_optional regist_alias (OIDDataSet.alias dataset)
          (for_in_optional regist_shorttoname (OIDDataSet.shorttoname dataset)
             (foldl regist_nametooid
                (regist [MYOIDSET_AGAIN]
                   (regist [MYOIDSET] (instance "uuid-1" None).1))
                (OIDDataSet.nametooid dataset))).
Proof.
  apply (reachable_setlist_empty
           [GetInstance "uuid-1"; Regist [MYOIDSET]; Regist [MYOIDSET_AGAIN]]).
  reflexivity.
Defined.

(** ** When a merge changes nothing *)

(** X5.  [registOne] leaves the registry as it is exactly when the data set
    is skipped or every key it offers is in the table it is offered to,
    as an own key or as the name of an inherited member. *)
Theorem registOne_unchanged_iff (dataset : OIDDataSet.t) (db : OIDDataBase) :
  registOne dataset db = db
  ↔ OIDDataSet.setname dataset ∈ _setlist db ∨ covered dataset db.
Proof.
  split.
  - intros Heq.
    destruct (decide (OIDDataSet.setname dataset ∈ _setlist db)) as [Hin|Hnin];
      [by left|right].
    rewrite <- Heq. by apply registOne_covered.
  - intros [Hin|Hcov].
    + by apply registOne_skipped.
    + by apply registOne_absorbed.
Qed.

(** ** Order of registration *)

Lemma own_entries_keys rec k : k ∈ (own_entries rec).*1 → k ∈ rec.*1.
Proof.
  unfold own_entries. intros H.
  apply list_elem_of_fmap in H as (e & -> & He).
  apply list_elem_of_filter in He as [_ He].
  apply list_elem_of_fmap. by exists e.
Qed.

Lemma merge_first_comm recA recB tbl :
  (∀ k, k ∈ recA.*1 → k ∉ recB.*1) →
  merge_first recA (merge_first recB tbl)
  = merge_first recB (merge_first recA tbl).
Proof.
  intros H. rewrite !merge_first_union, <- !(assoc_L (∪)). f_equal.
  apply map_union_comm, map_disjoint_dom. rewrite !dom_list_to_map_L.
  apply elem_of_disjoint.
  intros k Hb%elem_of_list_to_set Ha%elem_of_list_to_set.
  apply own_entries_keys in Ha, Hb. by eapply H.
Qed.

Lemma registOne_comm a b db :
  independent a b →
  registOne a (registOne b db) = registOne b (registOne a db).
Proof.
  intros Hind.
  destruct (decide (OIDDataSet.setname a ∈ _setlist db)) as [Ha|Ha].
  { rewrite (registOne_skipped a db) by done.
    apply registOne_skipped. by rewrite registOne_setlist. }
  destruct (decide (OIDDataSet.setname b ∈ _setlist db)) as [Hb|Hb].
  { rewrite (registOne_skipped b db) by done.
    symmetry. apply registOne_skipped. by rewrite registOne_setlist. }
  rewrite (registOne_merged a (registOne b db)) by (by rewrite registOne_setlist).
  rewrite (registOne_merged b (registOne a db)) by (by rewrite registOne_setlist).
  rewrite (registOne_merged a db), (registOne_merged b db) by done. simpl.
  f_equal.
  - apply (merge_first_comm _ _ _ (Hind oidToName)).
  - apply (merge_first_comm _ _ _ (Hind nameToOid)).
  - apply (merge_first_comm _ _ _ (Hind shortToName)).
  - apply (merge_first_comm _ _ _ (Hind nameToShort)).
  - apply (merge_first_comm _ _ _ (Hind aliasToName)).
Qed.

Lemma independent_Forall a b :
  (∀ t, Forall (λ k, k ∉ (pairs_written t b).*1) (pairs_written t a).*1) →
  independent a b.
Proof.
  intros H t k Hk. specialize (H t). rewrite Forall_forall in H. by apply H.
Qed.

(** X6.  The order in which data sets are registered does not matter as
    long as no two of them offer the same key to the same table: any
    rearrangement of such a list gives the same registry. *)
Theorem regist_permutation (l l' : list OIDDataSet.t) (db : OIDDataBase) :
  l ≡ₚ l' →
  (∀ a b, a ∈ l → b ∈ l → a = b ∨ independent a b) →
  regist l db = regist l' db.
Proof.
  intros Hperm. revert db.
  induction Hperm as [|x l l' Hperm IH|x y l|l l' l'' Hp1 IH1 Hp2 IH2];
    intros db Hind.
  - done.
  - rewrite !regist_cons. apply IH. intros a b Ha Hb.
    apply Hind; by right.
  - rewrite !regist_cons. f_equal.
    destruct (Hind x y) as [->|Hxy]; [right; left|left|done|].
    by apply registOne_comm.
  - rewrite IH1 by done. apply IH2. intros a b Ha Hb.
    apply Hind; by rewrite Hp1.
Qed.

Lemma bundled_sets_independent :
  ∀ a b, a ∈ [OIDSET_CRYPTO; OIDSET_X509] → b ∈ [OIDSET_CRYPTO; OIDSET_X509] →
         a = b ∨ independent a b.
Proof.
  intros a b Ha Hb.
  apply elem_of_cons in Ha as [->|Ha]; [|apply list_elem_of_singleton in Ha as ->];
    (apply elem_of_cons in Hb as [->|Hb]; [|apply list_elem_of_singleton in Hb as ->]);
    try (by left); right; apply independent_Forall; intros [];
    apply (bool_decide_unpack _); vm_compute; exact I.
Defined.

Lemma regist_permutation_witness :
  regist [OIDSET_CRYPTO; OIDSET_X509] new_OIDDataBase
  = regist [OIDSET_X509; OIDSET_CRYPTO] new_OIDDataBase.
Proof.
  apply (regist_permutation [OIDSET_CRYPTO; OIDSET_X509]
           [OIDSET_X509; OIDSET_CRYPTO] new_OIDDataBase).
  - apply Permutation_swap.
  - exact bundled_sets_independent.
Defined.

(** ** Tables that stay inverse to each other *)

Lemma own_entries_all rec :
  (∀ k, k ∈ rec.*1 → ¬ inherited k) → own_entries rec = rec.
Proof.
  unfold own_entries. induction rec as [|[k v] rec IH]; intros H; [done|].
  rewrite filter_cons_True by (apply H; left). f_equal.
  apply IH. intros k' Hk'. apply H. by right.
Qed.

Lemma merge_first_fresh_spec rec tbl k v :
  NoDup rec.*1 →
  (∀ k', k' ∈ rec.*1 → tbl !! k' = None ∧ ¬ inherited k') →
  merge_first rec tbl !! k = Some v ↔ tbl !! k = Some v ∨ (k, v) ∈ rec.
Proof.
  intros Hnd Hfresh.
  rewrite merge_first_union, own_entries_all by (intros; by apply Hfresh).
  rewrite lookup_union_Some_raw.
  rewrite <- (elem_of_list_to_map rec k v Hnd). split.
  - intros [H|[_ H]]; eauto.
  - intros [H|H]; [by left|right]. split; [|done].
    apply Hfresh, list_elem_of_fmap. by exists (k, v).
Qed.

Lemma elem_of_prod_swap_iff (rec : list (string * string)) k v :
  (v, k) ∈ prod_swap <$> rec ↔ (k, v) ∈ rec.
Proof.
  split; [apply elem_of_prod_swap|].
  intros H. apply list_elem_of_fmap. by exists (k, v).
Qed.

Lemma new_OIDDataBase_inverse_tables : inverse_tables new_OIDDataBase.
Proof. split; intros a b; simpl; by rewrite !lookup_empty. Qed.

Lemma registOne_keeps_inverse dataset db :
  OIDDataSet.setname dataset ∉ _setlist db →
  clean dataset db →
  inverse_tables db →
  inverse_tables (registOne dataset db).
Proof.
  intros Hset Hclean [Hno Hsn].
  pose proof (registOne_table oidToName dataset db Hset) as Eo.
  pose proof (registOne_table nameToOid dataset db Hset) as En.
  pose proof (registOne_table shortToName dataset db Hset) as Es.
  pose proof (registOne_table nameToShort dataset db Hset) as Ens.
  simpl in Eo, En, Es, Ens.
  destruct (Hclean oidToName) as [Nd1 F1], (Hclean nameToOid) as [Nd2 F2],
    (Hclean shortToName) as [Nd3 F3], (Hclean nameToShort) as [Nd4 F4].
  simpl in *.
  split.
  - intros name oid. rewrite En, Eo.
    rewrite (merge_first_fresh_spec _ _ name oid Nd2 F2).
    rewrite (merge_first_fresh_spec _ _ oid name Nd1 F1).
    by rewrite Hno, elem_of_prod_swap_iff.
  - intros short name. rewrite Es, Ens.
    rewrite (merge_first_fresh_spec _ _ short name Nd3 F3).
    rewrite (merge_first_fresh_spec _ _ name short Nd4 F4).
    by rewrite Hsn, elem_of_prod_swap_iff.
Qed.

(** X7.  Merging a data set whose mappings are one-to-one and whose keys
    are all new, none of them the name of a member inherited from
    [Object.prototype], keeps [nameToOid] and [oidToName] inverse to each
    other, and [shortToName] and [nameToShort] as well. *)
Theorem registOne_inverse_tables (dataset : OIDDataSet.t) (db : OIDDataBase) :
  OIDDataSet.setname dataset ∉ _setlist db →
  clean dataset db →
  inverse_tables db →
  inverse_tables (registOne dataset db).
Proof. apply registOne_keeps_inverse. Qed.

Lemma clean_Forall dataset db :
  (∀ t, NoDup (pairs_written t dataset).*1
        ∧ Forall (λ k, table_of t db !! k = None ∧ ¬ inherited k)
            (pairs_written t dataset).*1) →
  clean dataset db.
Proof.
  intros H t. destruct (H t) as [Hnd Hall]. split; [done|].
  by apply Forall_forall.
Qed.

Lemma OIDSET_X509_clean : clean OIDSET_X509 new_OIDDataBase.
Proof.
  apply clean_Forall. intros []; split;
    apply (bool_decide_unpack _); vm_compute; exact I.
Defined.

Lemma OIDSET_X509_inverse_tables :
  inverse_tables (registOne OIDSET_X509 new_OIDDataBase).
Proof.
  apply registOne_keeps_inverse.
  - apply not_elem_of_nil.
  - exact OIDSET_X509_clean.
  - exact new_OIDDataBase_inverse_tables.
Defined.

Lemma registOne_inverse_tables_witness :
  inverse_tables (registOne OIDSET_X509 new_OIDDataBase).
Proof.
  apply (registOne_inverse_tables OIDSET_X509 new_OIDDataBase).
  - apply not_elem_of_nil.
  - exact OIDSET_X509_clean.
  - exact new_OIDDataBase_inverse_tables.
Defined.

(** X8.  On a registry whose tables are inverse to each other the chained
    lookups are inverse as well: an OID found for a short name that is not
    the name of an inherited member leads back to that short name, and a
    name found for an OID leads back to that OID unless [aliasto] finds
    something for the name. *)
Theorem inverse_tables_roundtrip (db : OIDDataBase) :
  inverse_tables db →
  (∀ (short oid : string) useUndef,
     ¬ inherited short →
     shorttooid db short = Some oid →
     Plain.oidtoshort db oid = Some short
     ∧ UseUndef.oidtoshort db oid useUndef = Some short)
  ∧ (∀ (oid name : string),
     Plain.oidtoname db oid = Some name →
     aliasto db name = None →
     nametooid db name = Some oid).
Proof.
  intros [Hno Hsn]. split.
  - intros short oid useUndef Hi. unfold shorttooid. cbn [to_key].
    destruct (_dbSHORT2NAME db !! short) as [name|] eqn:Hs.
    + rewrite (get_own _ _ _ Hs). cbn [to_key]. intros Ho%get_Str.
      apply Hno in Ho. apply Hsn in Hs.
      unfold Plain.oidtoshort, UseUndef.oidtoshort. cbn [to_key].
      rewrite (get_own _ _ _ Ho). cbn [to_key]. by rewrite (get_own _ _ _ Hs).
    + by rewrite (get_absent _ _ Hs Hi).
  - intros oid name Ho Ha. unfold Plain.oidtoname in Ho. cbn [to_key] in Ho.
    apply get_Str, Hno in Ho.
    unfold nametooid, aliasto in *. cbn [to_key] in *. rewrite Ha. cbn [to_key].
    by rewrite (get_own _ _ _ Ho).
Qed.

Lemma inverse_tables_roundtrip_witness :
  (Plain.oidtoshort (registOne OIDSET_X509 new_OIDDataBase) "2.5.4.6" = Some "C"
   ∧ UseUndef.oidtoshort (registOne OIDSET_X509 new_OIDDataBase) "2.5.4.6" true
     = Some "C")
  ∧ nametooid (registOne OIDSET_X509 new_OIDDataBase) "keyUsage"
    = Some "2.5.29.15".
Proof.
  pose proof (inverse_tables_roundtrip (registOne OIDSET_X509 new_OIDDataBase)
                OIDSET_X509_inverse_tables) as [H1 H2].
  split.
  - apply (H1 "C" "2.5.4.6" true).
    + apply (bool_decide_unpack _). vm_compute. exact I.
    + vm_compute. reflexivity.
  - apply (H2 "2.5.29.15" "keyUsage").
    + vm_compute. reflexivity.
    + vm_compute. reflexivity.
Defined.

(** ** The lookups against each other *)

(** X9.  The revision with the [useUndef] flag, called with the flag set,
    returns what src/index.mts returns for [oidtoname], [shorttoname] and
    [nametoshort]; [oidtoshort] of the two revisions agree when the flag is
    left out. *)
Theorem useUndef_recovers_plain (db : OIDDataBase) (x : string) :
  UseUndef.oidtoname db x true = Plain.oidtoname db x
  ∧ UseUndef.shorttoname db x true = Plain.shorttoname db x
  ∧ UseUndef.nametoshort db x true = Plain.nametoshort db x
  ∧ UseUndef.oidtoshort db x false = Plain.oidtoshort db x.
Proof.
  unfold UseUndef.oidtoname, UseUndef.shorttoname, UseUndef.nametoshort,
    UseUndef.oidtoshort, Plain.oidtoname, Plain.shorttoname,
    Plain.nametoshort, Plain.oidtoshort.
  repeat split.
  - by destruct (get (_dbOID2NAME db) (to_key x)).
  - by destruct (get (_dbSHORT2NAME db) (to_key x)).
  - by destruct (get (_dbNAME2SHORT db) (to_key x)).
Qed.

(** X10.  Without the flag, the four lookups of the revision with the
    [useUndef] flag never return [undefined].  With the flag,
    [shorttoname] returns [undefined] exactly for the strings that are
    neither a key of [shortToName] nor the name of a member inherited from
    [Object.prototype], and [oidtoshort] exactly for the strings that are
    neither a key of [oidToName] nor such a name: an OID with a name but
    without short name still gives a result. *)
Theorem useUndef_undefined_iff (db : OIDDataBase) (x : string) :
  (is_Some (UseUndef.oidtoname db x false)
   ∧ is_Some (UseUndef.shorttoname db x false)
   ∧ is_Some (UseUndef.nametoshort db x false)
   ∧ is_Some (UseUndef.oidtoshort db x false))
  ∧ (UseUndef.shorttoname db x true = None
     ↔ _dbSHORT2NAME db !! x = None ∧ ¬ inherited x)
  ∧ (UseUndef.oidtoshort db x true = None
     ↔ _dbOID2NAME db !! x = None ∧ ¬ inherited x).
Proof.
  unfold UseUndef.oidtoname, UseUndef.shorttoname, UseUndef.nametoshort,
    UseUndef.oidtoshort. cbn [to_key].
  rewrite <- !get_None. split; [|split].
  - repeat split.
    + destruct (get (_dbOID2NAME db) x); eauto.
    + destruct (get (_dbSHORT2NAME db) x); eauto.
    + destruct (get (_dbNAME2SHORT db) x); eauto.
    + destruct (get (_dbOID2NAME db) x) as [name|]; [|eauto].
      destruct (get (_dbNAME2SHORT db) (to_key name)); eauto.
  - by destruct (get (_dbSHORT2NAME db) x).
  - destruct (get (_dbOID2NAME db) x) as [name|]; [|done].
    by destruct (get (_dbNAME2SHORT db) (to_key name)).
Qed.

(** X11.  [oidtoshort(oid)] is [nametoshort(oidtoname(oid))] for every OID
    that has a name, and for an OID without a name as long as the OID
    string is not itself a key of [nameToShort]. *)
Theorem oidtoshort_is_composition (db : OIDDataBase) (oid : string) :
  is_Some (_dbOID2NAME db !! oid) ∨ _dbNAME2SHORT db !! oid = None →
  UseUndef.oidtoshort db oid false
  = UseUndef.oidtoname db oid false
      ≫= λ name, UseUndef.nametoshort db name false.
Proof.
  unfold UseUndef.oidtoshort, UseUndef.oidtoname, UseUndef.nametoshort.
  cbn [to_key]. intros H.
  destruct (get (_dbOID2NAME db) oid) as [name|] eqn:Ho; simpl.
  - by destruct (get (_dbNAME2SHORT db) (to_key name)).
  - apply get_None in Ho as [Ho Hi].
    destruct H as [[? ?]|Hs]; [congruence|].
    by rewrite (get_absent _ _ Hs Hi).
Qed.

Lemma oidtoshort_is_composition_witness :
  UseUndef.oidtoshort oiddb "2.5.4.97" false
  = UseUndef.oidtoname oiddb "2.5.4.97" false
      ≫= λ name, UseUndef.nametoshort oiddb name false.
Proof.
  apply (oidtoshort_is_composition oiddb "2.5.4.97").
  right. vm_compute. reflexivity.
Defined.

(** X12.  [shorttooid] does not look at the aliases while [nametooid]
    does: when [shorttoname] of src/index.mts finds a name for [short] and
    [aliasto] finds nothing for that name, [shorttooid(short)] is
    [nametooid] of the name; when it finds nothing for [short],
    [shorttooid(short)] is [undefined].  An alias is resolved once:
    [nametooid(alias)] is [nametooid] of its target when [aliasto] finds
    nothing for the target. *)
Theorem shorttooid_nametooid (db : OIDDataBase) :
  (∀ short name : string,
     Plain.shorttoname db short = Some name →
     aliasto db name = None →
     shorttooid db short = nametooid db name)
  ∧ (∀ short : string,
     Plain.shorttoname db short = None → shorttooid db short = None)
  ∧ (∀ alias origin : string,
     aliasto db alias = Some origin →
     aliasto db origin = None →
     nametooid db alias = nametooid db origin).
Proof.
  unfold shorttooid, nametooid, aliasto, Plain.shorttoname. cbn [to_key].
  split; [|split].
  - by intros short name -> ->.
  - by intros short ->.
  - by intros alias origin -> ->.
Qed.

Lemma shorttooid_nametooid_witness :
  shorttooid oiddb "C" = nametooid oiddb "countryName"
  ∧ shorttooid oiddb "FOO" = None
  ∧ nametooid oiddb "NIST P-256" = nametooid oiddb "prime256v1".
Proof.
  destruct (shorttooid_nametooid oiddb) as (H1 & H2 & H3).
  split; [|split].
  - apply (H1 "C" "countryName").
    + vm_compute. reflexivity.
    + vm_compute. reflexivity.
  - apply (H2 "FOO"). vm_compute. reflexivity.
  - apply (H3 "NIST P-256" "prime256v1").
    + vm_compute. reflexivity.
    + vm_compute. reflexivity.
Defined.

(** ** The getter *)

(** X13.  The getter [instance] creates the registry once: a second read
    returns the object the first read returned, whatever
    [crypto.randomUUID()] would give then, and after any calls it returns
    the registry as those calls left it. *)
Theorem instance_is_singleton (r1 r2 : string) (st : option OIDDataBase)
    (calls : list call) :
  instance r2 (instance r1 st).2 = instance r1 st
  ∧ ∃ this, run calls (instance r1 st).2 = Some this
            ∧ instance r2 (run calls (instance r1 st).2)
              = (this, run calls (instance r1 st).2).
Proof.
  split; [by destruct st|].
  assert (∃ this0, (instance r1 st).2 = Some this0) as [this0 ->].
  { destruct st; simpl; eauto. }
  destruct (run_uuid calls this0) as (this & -> & _). by exists this.
Qed.

(** X14.  The registry the getter creates has no entry.  For an argument
    that is not the name of a member inherited from [Object.prototype],
    [nametooid], [shorttooid] and [aliasto] return [undefined] and the
    lookups with a fallback return their argument, or [undefined] with the
    flag set.  For the name of an inherited member the single-table
    lookups return that member, with or without the flag. *)
Theorem fresh_instance_knows_nothing (randomUUID x : string) (useUndef : bool) :
  let this := (instance randomUUID None).1 in
  (¬ inherited x →
   nametooid this x = None
   ∧ shorttooid this x = None
   ∧ aliasto this x = None
   ∧ Plain.oidtoname this x = None
   ∧ Plain.oidtoshort this x = Some x
   ∧ UseUndef.oidtoname this x useUndef = (if useUndef then None else Some x)
   ∧ UseUndef.shorttoname this x useUndef = (if useUndef then None else Some x)
   ∧ UseUndef.nametoshort this x useUndef = (if useUndef then None else Some x)
   ∧ UseUndef.oidtoshort this x useUndef = (if useUndef then None else Some x))
  ∧ (inherited x →
     aliasto this x = Some (Member x)
     ∧ Plain.oidtoname this x = Some (Member x)
     ∧ UseUndef.oidtoname this x useUndef = Some (Member x)
     ∧ UseUndef.shorttoname this x useUndef = Some (Member x)
     ∧ UseUndef.nametoshort this x useUndef = Some (Member x)).
Proof.
  unfold nametooid, shorttooid, aliasto, Plain.oidtoname, Plain.oidtoshort,
    UseUndef.oidtoname, UseUndef.shorttoname, UseUndef.nametoshort,
    UseUndef.oidtoshort.
  simpl. split.
  - intros Hi. rewrite !(get_absent ∅ x (lookup_empty x) Hi). simpl.
    rewrite ?(get_absent ∅ x (lookup_empty x) Hi). repeat split; done.
  - intros Hi. rewrite !(get_inherited ∅ x (lookup_empty x) Hi).
    repeat split; done.
Qed.

Lemma fresh_instance_knows_nothing_witness :
  (nametooid (instance "uuid-1" None).1 "keyUsage" = None
   ∧ shorttooid (instance "uuid-1" None).1 "keyUsage" = None
   ∧ aliasto (instance "uuid-1" None).1 "keyUsage" = None
   ∧ Plain.oidtoname (instance "uuid-1" None).1 "keyUsage" = None
   ∧ Plain.oidtoshort (instance "uuid-1" None).1 "keyUsage" = Some "keyUsage"
   ∧ UseUndef.oidtoname (instance "uuid-1" None).1 "keyUsage" false
     = (if false then None else Some "keyUsage")
   ∧ UseUndef.shorttoname (instance "uuid-1" None).1 "keyUsage" false
     = (if false then None else Some "keyUsage")
   ∧ UseUndef.nametoshort (instance "uuid-1" None).1 "keyUsage" false
     = (if false then None else Some "keyUsage")
   ∧ UseUndef.oidtoshort (instance "uuid-1" None).1 "keyUsage" false
     = (if false then None else Some "keyUsage"))
  ∧ (aliasto (instance "uuid-1" None).1 "constructor" = Some (Member "constructor")
     ∧ Plain.oidtoname (instance "uuid-1" None).1 "constructor"
       = Some (Member "constructor")
     ∧ UseUndef.oidtoname (instance "uuid-1" None).1 "constructor" true
       = Some (Member "constructor")
     ∧ UseUndef.shorttoname (instance "uuid-1" None).1 "constructor" true
       = Some (Member "constructor")
     ∧ UseUndef.nametoshort (instance "uuid-1" None).1 "constructor" true
       = Some (Member "constructor")).
Proof.
  split.
  - apply (proj1 (fresh_instance_knows_nothing "uuid-1" "keyUsage" false)).
    apply (bool_decide_unpack _). vm_compute. exact I.
  - apply (proj2 (fresh_instance_knows_nothing "uuid-1" "constructor" true)).
    apply (bool_decide_unpack _). vm_compute. exact I.
Defined.

(** ** Data sets that do not conflict *)

Lemma registOne_clean_pairs t dataset db k v :
  OIDDataSet.setname dataset ∉ _setlist db →
  clean dataset db →
  (k, v) ∈ pairs_written t dataset →
  table_of t (registOne dataset db) !! k = Some v.
Proof.
  intros Hset Hclean Hin. destruct (Hclean t) as [Hnd Hfresh].
  rewrite registOne_table by done.
  apply merge_first_fresh_spec; [done..|]. by right.
Qed.

(** X15.  When every data set of the list is merged and brings only keys
    that are new at that moment, one key per value and none of them the
    name of a member inherited from [Object.prototype], then after
    [regist] every pair of every data set is in its table, in both
    directions, and tables that were inverse to each other still are. *)
Theorem regist_clean_roundtrip (datasetList : list OIDDataSet.t)
    (db : OIDDataBase) :
  clean_list datasetList db →
  inverse_tables db →
  inverse_tables (regist datasetList db)
  ∧ ∀ dataset t k v,
      dataset ∈ datasetList →
      (k, v) ∈ pairs_written t dataset →
      table_of t (regist datasetList db) !! k = Some v.
Proof.
  revert db. induction datasetList as [|d l IH]; intros db Hclean Hinv.
  - split; [done|]. intros dataset t k v Hin. by apply elem_of_nil in Hin.
  - destruct Hclean as (Hset & Hd & Hl). rewrite regist_cons.
    destruct (IH (registOne d db) Hl) as [Hinv' Hpairs].
    { by apply registOne_keeps_inverse. }
    split; [done|].
    intros dataset t k v Hin Hkv.
    apply elem_of_cons in Hin as [->|Hin]; [|by eapply Hpairs].
    eapply extends_lookup; [apply regist_extends|].
    by apply registOne_clean_pairs.
Qed.

Lemma bundled_sets_clean :
  clean_list [OIDSET_CRYPTO; UseUndefSets.OIDSET_X509] new_OIDDataBase.
Proof.
  split; [apply not_elem_of_nil|]. split; [|split; [|split; [|done]]].
  - apply clean_Forall. intros []; split;
      apply (bool_decide_unpack _); vm_compute; exact I.
  - rewrite registOne_setlist. apply not_elem_of_nil.
  - apply clean_Forall. intros []; split;
      apply (bool_decide_unpack _); vm_compute; exact I.
Defined.

Lemma regist_clean_roundtrip_witness :
  inverse_tables UseUndefSets.oiddb
  ∧ ∀ dataset t k v,
      dataset ∈ [OIDSET_CRYPTO; UseUndefSets.OIDSET_X509] →
      (k, v) ∈ pairs_written t dataset →
      table_of t UseUndefSets.oiddb !! k = Some v.
Proof.
  apply (regist_clean_roundtrip [OIDSET_CRYPTO; UseUndefSets.OIDSET_X509]
           new_OIDDataBase).
  - exact bundled_sets_clean.
  - exact new_OIDDataBase_inverse_tables.
Defined.

(** The assertions of the test suite of the revision with the flag, on its
    own bundled data. *)
Example test_UseUndef :
  UseUndef.oidtoname UseUndefSets.oiddb "2.5.29.15" false = Some "keyUsage"
  ∧ UseUndef.oidtoname UseUndefSets.oiddb "1.2.3.4" false = Some "1.2.3.4"
  ∧ UseUndef.oidtoname UseUndefSets.oiddb "1.2.3.4" true = None
  ∧ UseUndef.oidtoshort UseUndefSets.oiddb "2.5.4.6" false = Some "C"
  ∧ UseUndef.oidtoshort UseUndefSets.oiddb "2.5.4.6" true = Some "C"
  ∧ UseUndef.oidtoshort UseUndefSets.oiddb "2.5.29.15" false = Some "keyUsage"
  ∧ UseUndef.oidtoshort UseUndefSets.oiddb "2.5.29.15" true = Some "keyUsage"
  ∧ UseUndef.oidtoshort UseUndefSets.oiddb "1.2.3.4" false = Some "1.2.3.4"
  ∧ UseUndef.oidtoshort UseUndefSets.oiddb "1.2.3.4" true = None
  ∧ UseUndef.shorttoname UseUndefSets.oiddb "CN" false = Some "commonName"
  ∧ UseUndef.nametoshort UseUndefSets.oiddb "commonName" false = Some "CN"
  ∧ shorttooid UseUndefSets.oiddb "C" = Some "2.5.4.6"
  ∧ nametooid UseUndefSets.oiddb "keyUsage" = Some "2.5.29.15"
  ∧ nametooid UseUndefSets.oiddb "P-256" = Some "1.2.840.10045.3.1.7"
  ∧ nametooid UseUndefSets.oiddb "P-521" = Some "1.3.132.0.35"
  ∧ aliasto UseUndefSets.oiddb "P-256" = Some "prime256v1".
Proof. by vm_compute. Qed.

(** * The earliest revision *)

(** ** The loops, table by table *)

Lemma foldl_related {A B E : Type} (R : A → B → Prop)
    (f : A → E → A) (g : B → E → B) :
  (∀ a b e, R a b → R (f a e) (g b e)) →
  ∀ l a b, R a b → R (foldl f a l) (foldl g b l).
Proof.
  intros Hstep l. induction l as [|e l IH]; intros a b HR; [done|].
  simpl. by apply IH, Hstep.
Qed.

Lemma Early_foldl_regist_oidtoname rec db out :
  foldl Early.regist_oidtoname (db, out) rec =
  ({| _uuid := _uuid db;
      _dbOID2NAME :=
        (foldl (Early.write_new "already registered: ")
           (_dbOID2NAME db, _dbNAME2OID db, out) rec).1.1;
      _dbNAME2OID :=
        (foldl (Early.write_new "already registered: ")
           (_dbOID2NAME db, _dbNAME2OID db, out) rec).1.2;
      _dbSHORT2NAME := _dbSHORT2NAME db;
      _dbNAME2SHORT := _dbNAME2SHORT db;
      _dbALIAS := _dbALIAS db;
      _setlist := _setlist db |},
   (foldl (Early.write_new "already registered: ")
      (_dbOID2NAME db, _dbNAME2OID db, out) rec).2).
Proof.
  apply (foldl_related
    (λ st tt, st = ({| _uuid := _uuid db;
                       _dbOID2NAME := tt.1.1;
                       _dbNAME2OID := tt.1.2;
                       _dbSHORT2NAME := _dbSHORT2NAME db;
                       _dbNAME2SHORT := _dbNAME2SHORT db;
                       _dbALIAS := _dbALIAS db;
                       _setlist := _setlist db |}, tt.2))).
  - intros st [[fwd bwd] console] [oid name] ->.
    unfold Early.regist_oidtoname, Early.write_new. simpl.
    by destruct (decide (has_property fwd oid)).
  - by destruct db.
Qed.

Lemma Early_foldl_regist_shorttoname rec db out :
  foldl Early.regist_shorttoname (db, out) rec =
  ({| _uuid := _uuid db;
      _dbOID2NAME := _dbOID2NAME db;
      _dbNAME2OID := _dbNAME2OID db;
      _dbSHORT2NAME :=
        (foldl (Early.write_new "already registered short name: ")
           (_dbSHORT2NAME db, _dbNAME2SHORT db, out) rec).1.1;
      _dbNAME2SHORT :=
        (foldl (Early.write_new "already registered short name: ")
           (_dbSHORT2NAME db, _dbNAME2SHORT db, out) rec).1.2;
      _dbALIAS := _dbALIAS db;
      _setlist := _setlist db |},
   (foldl (Early.write_new "already registered short name: ")
      (_dbSHORT2NAME db, _dbNAME2SHORT db, out) rec).2).
Proof.
  apply (foldl_related
    (λ st tt, st = ({| _uuid := _uuid db;
                       _dbOID2NAME := _dbOID2NAME db;
                       _dbNAME2OID := _dbNAME2OID db;
                       _dbSHORT2NAME := tt.1.1;
                       _dbNAME2SHORT := tt.1.2;
                       _dbALIAS := _dbALIAS db;
                       _setlist := _setlist db |}, tt.2))).
  - intros st [[fwd bwd] console] [short name] ->.
    unfold Early.regist_shorttoname, Early.write_new. simpl.
    by destruct (decide (has_property fwd short)).
  - by destruct db.
Qed.

(** The alias loop writes one table only; the table of the opposite
    direction of [write_new] is not part of the registry. *)
Lemma Early_foldl_regist_alias rec db out :
  foldl Early.regist_alias (db, out) rec =
  ({| _uuid := _uuid db;
      _dbOID2NAME := _dbOID2NAME db;
      _dbNAME2OID := _dbNAME2OID db;
      _dbSHORT2NAME := _dbSHORT2NAME db;
      _dbNAME2SHORT := _dbNAME2SHORT db;
      _dbALIAS :=
        (foldl (Early.write_new "already registered alias: ")
           (_dbALIAS db, ∅, out) rec).1.1;
      _setlist := _setlist db |},
   (foldl (Early.write_new "already registered alias: ")
      (_dbALIAS db, ∅, out) rec).2).
Proof.
  apply (foldl_related
    (λ st tt, st = ({| _uuid := _uuid db;
                       _dbOID2NAME := _dbOID2NAME db;
                       _dbNAME2OID := _dbNAME2OID db;
                       _dbSHORT2NAME := _dbSHORT2NAME db;
                       _dbNAME2SHORT := _dbNAME2SHORT db;
                       _dbALIAS := tt.1.1;
                       _setlist := _setlist db |}, tt.2))).
  - intros st [[fwd bwd] console] [alias origin] ->.
    unfold Early.regist_alias, Early.write_new. simpl.
    by destruct (decide (has_property fwd alias)).
  - by destruct db.
Qed.

(** ** One loop of the earliest [registOne] *)

Lemma lookup_put_ne k k' v (tbl : gmap string string) :
  k ≠ k' → put k v tbl !! k' = tbl !! k'.
Proof.
  intros H. unfold put. destruct (decide (k = "__proto__")); [done|].
  by rewrite lookup_insert_ne.
Qed.

Lemma not_has_property tbl k :
  ¬ has_property tbl k ↔ tbl !! k = None ∧ ¬ inherited k.
Proof.
  unfold has_property. split.
  - intros H. split; [|tauto].
    destruct (tbl !! k) eqn:E; [|done]. exfalso. apply H. left. eauto.
  - intros [E Hi] [[? ?]|?]; [congruence|done].
Qed.

Section write_new.
Context (prefix : string).

Lemma Early_write_new_taken fwd bwd out k v :
  has_property fwd k →
  Early.write_new prefix (fwd, bwd, out) (k, v)
  = (fwd, bwd, (out ++ [prefix +:+ k])%list).
Proof. intros H. unfold Early.write_new. simpl. by rewrite decide_True. Qed.

Lemma Early_write_new_fresh fwd bwd out k v :
  ¬ has_property fwd k →
  Early.write_new prefix (fwd, bwd, out) (k, v)
  = (<[k := v]> fwd, put v k bwd, out).
Proof.
  intros H. unfold Early.write_new. simpl. rewrite decide_False by done.
  rewrite put_fresh; [done|]. by apply not_has_property in H as [_ ?].
Qed.

Lemma Early_loop_cons fwd bwd out k v rec :
  foldl (Early.write_new prefix) (fwd, bwd, out) ((k, v) :: rec)
  = if decide (has_property fwd k)
    then foldl (Early.write_new prefix) (fwd, bwd, (out ++ [prefix +:+ k])%list) rec
    else foldl (Early.write_new prefix) (<[k := v]> fwd, put v k bwd, out) rec.
Proof.
  cbn [foldl]. destruct (decide (has_property fwd k)) as [Hk|Hk].
  - by rewrite Early_write_new_taken.
  - by rewrite Early_write_new_fresh.
Qed.

(** The table that is tested ends up as in the later revisions. *)
Lemma Early_loop_fwd rec fwd bwd out :
  (foldl (Early.write_new prefix) (fwd, bwd, out) rec).1.1 = merge_first rec fwd.
Proof.
  revert fwd bwd out. induction rec as [|[k v] rec IH]; intros fwd bwd out;
    [done|].
  rewrite Early_loop_cons, merge_first_cons.
  destruct (decide (has_property fwd k)) as [Hk|Hk]; rewrite IH.
  - by rewrite set_if_absent_present.
  - apply not_has_property in Hk as [Hk Hi]. by rewrite set_if_absent_fresh.
Qed.

Lemma taken_keys_insert_fresh rec (tbl : gmap string string) k v :
  k ∉ rec.*1 →
  Early.taken_keys rec (<[k := v]> tbl) = Early.taken_keys rec tbl.
Proof.
  unfold Early.taken_keys.
  induction rec as [|[k' v'] rec IH]; intros Hnin; [done|].
  cbn [fmap list_fmap fst] in *.
  apply not_elem_of_cons in Hnin as [Hne Hnin].
  rewrite !filter_cons, IH by done.
  destruct (decide (has_property tbl k')) as [H|H].
  - rewrite decide_True; [done|].
    destruct H as [[w Hw]|Hi]; [left|by right].
    exists w. by rewrite lookup_insert_ne.
  - rewrite decide_False; [done|].
    intros [[w Hw]|Hi]; apply H; [left|by right].
    exists w. by rewrite lookup_insert_ne in Hw.
Qed.

(** One line per key that was in the table before the loop, in
    enumeration order. *)
Lemma Early_loop_console rec fwd bwd out :
  NoDup rec.*1 →
  (foldl (Early.write_new prefix) (fwd, bwd, out) rec).2
  = (out ++ ((λ k, prefix +:+ k) <$> Early.taken_keys rec fwd))%list.
Proof.
  revert fwd bwd out. induction rec as [|[k v] rec IH]; intros fwd bwd out Hnd.
  - simpl. by rewrite app_nil_r.
  - cbn [fmap list_fmap fst] in Hnd. apply NoDup_cons in Hnd as [Hk Hnd].
    rewrite Early_loop_cons. unfold Early.taken_keys.
    cbn [fmap list_fmap fst]. rewrite filter_cons.
    destruct (decide (has_property fwd k)) as [Hfk|Hfk].
    + rewrite IH by done. by rewrite <- app_assoc.
    + rewrite IH by done. by rewrite taken_keys_insert_fresh.
Qed.

(** The table of the opposite direction never points to a key that does
    not point back. *)
Lemma Early_loop_points_back rec fwd bwd out :
  (∀ v k, bwd !! v = Some k → fwd !! k = Some v) →
  ∀ v k, (foldl (Early.write_new prefix) (fwd, bwd, out) rec).1.2 !! v = Some k →
         (foldl (Early.write_new prefix) (fwd, bwd, out) rec).1.1 !! k = Some v.
Proof.
  revert fwd bwd out. induction rec as [|[k1 v1] rec IH];
    intros fwd bwd out Hinv; [done|].
  rewrite Early_loop_cons. destruct (decide (has_property fwd k1)) as [Hk1|Hk1].
  - by apply IH.
  - apply not_has_property in Hk1 as [Hk1 _].
    apply IH. intros v k.
    destruct (decide (v1 = v)) as [->|Hv].
    + unfold put. destruct (decide (v = "__proto__")).
      * intros Hb. pose proof (Hinv _ _ Hb) as Hf.
        rewrite lookup_insert_ne; [done|]. intros ->. congruence.
      * rewrite lookup_insert_eq. intros [= <-]. by rewrite lookup_insert_eq.
    + rewrite lookup_put_ne by done. intros Hb.
      pose proof (Hinv _ _ Hb) as Hf.
      rewrite lookup_insert_ne; [done|]. intros ->. congruence.
Qed.

Lemma Early_loop_bwd_untouched rec fwd bwd out v :
  keys_of_value v rec = [] →
  (foldl (Early.write_new prefix) (fwd, bwd, out) rec).1.2 !! v = bwd !! v.
Proof.
  unfold keys_of_value.
  revert fwd bwd out. induction rec as [|[k1 v1] rec IH];
    intros fwd bwd out Hnone; [done|].
  rewrite filter_cons in Hnone. cbn [snd] in Hnone.
  destruct (decide (v1 = v)) as [->|Hne]; [done|].
  rewrite Early_loop_cons.
  destruct (decide (has_property fwd k1)); rewrite IH by done; [done|].
  by rewrite lookup_put_ne.
Qed.

(** A new key takes over its value in the table of the opposite
    direction, whatever that table held before. *)
Lemma Early_loop_takeover rec fwd bwd out k v :
  NoDup rec.*1 →
  keys_of_value v rec = [k] →
  fwd !! k = None → ¬ inherited k → v ≠ "__proto__" →
  (foldl (Early.write_new prefix) (fwd, bwd, out) rec).1.2 !! v = Some k.
Proof.
  revert fwd bwd out. induction rec as [|[k1 v1] rec IH];
    intros fwd bwd out Hnd Hkeys Hfresh Hi Hv; [done|].
  cbn [fmap list_fmap fst] in Hnd. apply NoDup_cons in Hnd as [Hk1 Hnd].
  unfold keys_of_value in Hkeys. rewrite filter_cons in Hkeys.
  cbn [snd] in Hkeys. rewrite Early_loop_cons.
  destruct (decide (v1 = v)) as [->|Hne].
  - cbn [fmap list_fmap fst] in Hkeys. injection Hkeys as -> Hrest.
    rewrite decide_False by (by apply not_has_property).
    rewrite Early_loop_bwd_untouched by done.
    by rewrite put_insert, lookup_insert_eq.
  - fold (keys_of_value v rec) in Hkeys.
    assert (k1 ≠ k) as Hk.
    { intros ->. apply Hk1. apply list_elem_of_fmap. exists (k, v).
      split; [done|]. apply keys_of_value_elem_of. rewrite Hkeys. left. }
    destruct (decide (has_property fwd k1)); apply IH; try done.
    by rewrite lookup_insert_ne.
Qed.

(** When every key and every value is new and occurs once, the table of
    the opposite direction ends up as in the later revisions as well. *)
Lemma Early_loop_bwd_clean rec fwd bwd out :
  NoDup rec.*1 → NoDup rec.*2 →
  (∀ k, k ∈ rec.*1 → fwd !! k = None ∧ ¬ inherited k) →
  (∀ v, v ∈ rec.*2 → bwd !! v = None ∧ ¬ inherited v) →
  (foldl (Early.write_new prefix) (fwd, bwd, out) rec).1.2
  = merge_first (prod_swap <$> rec) bwd.
Proof.
  revert fwd bwd out. induction rec as [|[k v] rec IH];
    intros fwd bwd out Hnd1 Hnd2 Hf1 Hf2; [done|].
  cbn [fmap list_fmap fst snd] in *.
  apply NoDup_cons in Hnd1 as [Hk Hnd1]. apply NoDup_cons in Hnd2 as [Hv Hnd2].
  destruct (Hf1 k ltac:(left)) as [Hk0 Hki].
  destruct (Hf2 v ltac:(left)) as [Hv0 Hvi].
  rewrite Early_loop_cons, decide_False by (by apply not_has_property).
  cbn [prod_swap fst snd]. rewrite merge_first_cons.
  rewrite set_if_absent_fresh, put_fresh by done.
  apply IH; try done.
  - intros k' Hk'. rewrite lookup_insert_ne by (by intros ->).
    apply Hf1. by right.
  - intros v' Hv'. rewrite lookup_insert_ne by (by intros ->).
    apply Hf2. by right.
Qed.

End write_new.

(** ** The earliest [registOne] and [regist] *)

Lemma Early_registOne_skipped dataset db out :
  Early.setname dataset ∈ _setlist db →
  Early.registOne dataset (db, out) = (db, out).
Proof. intros H. unfold Early.registOne. simpl. by rewrite decide_True. Qed.

Lemma Early_registOne_merged dataset db out :
  Early.setname dataset ∉ _setlist db →
  Early.registOne dataset (db, out) =
  ({| _uuid := _uuid db;
      _dbOID2NAME :=
        (foldl (Early.write_new "already registered: ")
           (_dbOID2NAME db, _dbNAME2OID db, out)
           (Early.oidtoname dataset)).1.1;
      _dbNAME2OID :=
        (foldl (Early.write_new "already registered: ")
           (_dbOID2NAME db, _dbNAME2OID db, out)
           (Early.oidtoname dataset)).1.2;
      _dbSHORT2NAME :=
        (foldl (Early.write_new "already registered short name: ")
           (_dbSHORT2NAME db, _dbNAME2SHORT db,
            (foldl (Early.write_new "already registered: ")
               (_dbOID2NAME db, _dbNAME2OID db, out)
               (Early.oidtoname dataset)).2)
           (entries (Early.shorttoname dataset))).1.1;
      _dbNAME2SHORT :=
        (foldl (Early.write_new "already registered short name: ")
           (_dbSHORT2NAME db, _dbNAME2SHORT db,
            (foldl (Early.write_new "already registered: ")
               (_dbOID2NAME db, _dbNAME2OID db, out)
               (Early.oidtoname dataset)).2)
           (entries (Early.shorttoname dataset))).1.2;
      _dbALIAS :=
        (foldl (Early.write_new "already registered alias: ")
           (_dbALIAS db, ∅,
            (foldl (Early.write_new "already registered short name: ")
               (_dbSHORT2NAME db, _dbNAME2SHORT db,
                (foldl (Early.write_new "already registered: ")
                   (_dbOID2NAME db, _dbNAME2OID db, out)
                   (Early.oidtoname dataset)).2)
               (entries (Early.shorttoname dataset))).2)
           (entries (Early.alias dataset))).1.1;
      _setlist := _setlist db |},
   (foldl (Early.write_new "already registered alias: ")
      (_dbALIAS db, ∅,
       (foldl (Early.write_new "already registered short name: ")
          (_dbSHORT2NAME db, _dbNAME2SHORT db,
           (foldl (Early.write_new "already registered: ")
              (_dbOID2NAME db, _dbNAME2OID db, out)
              (Early.oidtoname dataset)).2)
          (entries (Early.shorttoname dataset))).2)
      (entries (Early.alias dataset))).2).
Proof.
  intros H. unfold Early.registOne. cbn [fst]. rewrite decide_False by done.
  cbv zeta. rewrite Early_foldl_regist_oidtoname.
  destruct (Early.shorttoname dataset) as [shorts|],
           (Early.alias dataset) as [aliases|];
    cbn [Early.for_in_optional entries default];
    rewrite ?Early_foldl_regist_shorttoname, ?Early_foldl_regist_alias;
    done.
Qed.

Lemma Early_registOne_setlist dataset st :
  _setlist (Early.registOne dataset st).1 = _setlist st.1.
Proof.
  destruct st as [db out]. cbn [fst].
  destruct (decide (Early.setname dataset ∈ _setlist db)) as [Hin|Hnin].
  - by rewrite Early_registOne_skipped.
  - by rewrite Early_registOne_merged.
Qed.

Lemma Early_registOne_points_back dataset st :
  Early.points_back st.1 → Early.points_back (Early.registOne dataset st).1.
Proof.
  destruct st as [db out]. cbn [fst]. intros [Hno Hsn].
  destruct (decide (Early.setname dataset ∈ _setlist db)) as [Hin|Hnin].
  { by rewrite Early_registOne_skipped. }
  rewrite Early_registOne_merged by done. split; cbn [fst _dbOID2NAME
    _dbNAME2OID _dbSHORT2NAME _dbNAME2SHORT].
  - by apply Early_loop_points_back.
  - by apply Early_loop_points_back.
Qed.

(** X16.  The earliest revision keeps the tables of the opposite direction
    consistent with the tables it tests: after any [regist], whenever
    [nameToOid] gives an OID for a name, [oidToName] gives that name for
    the OID, and whenever [nameToShort] gives a short name for a name,
    [shortToName] gives that name back. *)
Theorem Early_regist_points_back (datasetList : list Early.OIDDataSet)
    (st : OIDDataBase * list string) :
  Early.points_back st.1 →
  Early.points_back (Early.regist datasetList st).1.
Proof.
  revert st. induction datasetList as [|d l IH]; intros st Hinv; [done|].
  apply IH. by apply Early_registOne_points_back.
Qed.

Lemma Early_regist_points_back_witness :
  Early.points_back
    (Early.regist [Early.SHA1SET; Early.SHA1SET_OTHER] (new_OIDDataBase, [])).1.
Proof.
  apply (Early_regist_points_back [Early.SHA1SET; Early.SHA1SET_OTHER]
           (new_OIDDataBase, [])).
  split; intros a b; simpl; by rewrite lookup_empty.
Defined.

(** X17.  In the earliest revision [nameToOid] is not first-writer-wins:
    when a merged data set gives a name to exactly one OID, that OID is
    new and not the name of a member inherited from [Object.prototype],
    and the name is not "__proto__", the name resolves to that OID
    afterwards, whatever OID it resolved to before, and the OID resolves
    to the name. *)
Theorem Early_new_oid_takes_name (dataset : Early.OIDDataSet)
    (db : OIDDataBase) (out : list string) (oid name : string) :
  Early.setname dataset ∉ _setlist db →
  wf_record (Early.oidtoname dataset) →
  keys_of_value name (Early.oidtoname dataset) = [oid] →
  _dbOID2NAME db !! oid = None →
  ¬ inherited oid →
  name ≠ "__proto__" →
  _dbNAME2OID (Early.registOne dataset (db, out)).1 !! name = Some oid
  ∧ _dbOID2NAME (Early.registOne dataset (db, out)).1 !! oid = Some name.
Proof.
  intros Hset Hwf Hkeys Hfresh Hi Hname.
  rewrite Early_registOne_merged by done. cbn [fst _dbOID2NAME _dbNAME2OID].
  split.
  - by apply Early_loop_takeover.
  - rewrite Early_loop_fwd, merge_first_lookup_fresh by done.
    apply elem_of_list_to_map_1; [done|].
    apply keys_of_value_elem_of. rewrite Hkeys. left.
Qed.

Lemma Early_new_oid_takes_name_witness :
  _dbNAME2OID
    (Early.registOne Early.SHA1SET_OTHER
       ((Early.registOne Early.SHA1SET (new_OIDDataBase, [])).1, [])).1
    !! "sha1" = Some "1.3.14.3.2.18"
  ∧ _dbOID2NAME
      (Early.registOne Early.SHA1SET_OTHER
         ((Early.registOne Early.SHA1SET (new_OIDDataBase, [])).1, [])).1
      !! "1.3.14.3.2.18" = Some "sha1".
Proof.
  apply (Early_new_oid_takes_name Early.SHA1SET_OTHER
           (Early.registOne Early.SHA1SET (new_OIDDataBase, [])).1 []
           "1.3.14.3.2.18" "sha1").
  - rewrite Early_registOne_setlist. apply not_elem_of_nil.
  - apply (bool_decide_unpack _). vm_compute. exact I.
  - vm_compute. reflexivity.
  - vm_compute. reflexivity.
  - apply (bool_decide_unpack _). vm_compute. exact I.
  - apply (bool_decide_unpack _). vm_compute. exact I.
Defined.

(** The name had another OID before the second data set was merged, and
    that OID still resolves to the name. *)
Example Early_two_oids_for_sha1 :
  _dbNAME2OID (Early.registOne Early.SHA1SET (new_OIDDataBase, [])).1 !! "sha1"
  = Some "1.3.14.3.2.26"
  ∧ _dbOID2NAME
      (Early.regist [Early.SHA1SET; Early.SHA1SET_OTHER] (new_OIDDataBase, [])).1
      !! "1.3.14.3.2.26" = Some "sha1"
  ∧ (Early.regist [Early.SHA1SET; Early.SHA1SET_OTHER] (new_OIDDataBase, [])).2
    = ["already registered: 1.3.14.3.2.26"].
Proof. by vm_compute. Qed.

(** ** The earliest revision against the later ones *)

Lemma prod_swap_swap_fmap (rec : list (string * string)) :
  prod_swap <$> (prod_swap <$> rec) = rec.
Proof.
  induction rec as [|[k v] rec IH]; [done|]. simpl. f_equal. apply IH.
Qed.

Lemma fst_prod_swap_fmap (rec : list (string * string)) :
  (prod_swap <$> rec).*1 = rec.*2.
Proof.
  induction rec as [|[k v] rec IH]; [done|]. simpl. f_equal. apply IH.
Qed.

(** X18.  Merging a data set with the earliest [registOne] and merging the
    same entries with the later [registOne] leave the same [oidToName],
    [shortToName] and [aliasToName]; when the data set brings only new
    keys, one key per value and none of them the name of a member
    inherited from [Object.prototype], they leave the same registry. *)
Theorem Early_registOne_agrees (dataset : Early.OIDDataSet)
    (db : OIDDataBase) (out : list string) :
  (_dbOID2NAME (Early.registOne dataset (db, out)).1
   = _dbOID2NAME (registOne (Early.to_nametooid dataset) db)
   ∧ _dbSHORT2NAME (Early.registOne dataset (db, out)).1
     = _dbSHORT2NAME (registOne (Early.to_nametooid dataset) db)
   ∧ _dbALIAS (Early.registOne dataset (db, out)).1
     = _dbALIAS (registOne (Early.to_nametooid dataset) db))
  ∧ (clean (Early.to_nametooid dataset) db →
     (Early.registOne dataset (db, out)).1
     = registOne (Early.to_nametooid dataset) db).
Proof.
  destruct (decide (Early.setname dataset ∈ _setlist db)) as [Hin|Hnin].
  { rewrite Early_registOne_skipped, registOne_skipped by done. done. }
  rewrite Early_registOne_merged by done.
  rewrite (registOne_merged (Early.to_nametooid dataset) db) by done.
  cbn [fst Early.to_nametooid OIDDataSet.nametooid OIDDataSet.shorttoname
       OIDDataSet.alias _dbOID2NAME _dbSHORT2NAME _dbALIAS].
  rewrite !Early_loop_fwd, prod_swap_swap_fmap.
  split; [done|]. intros Hclean.
  destruct (Hclean oidToName) as [Nd1 F1], (Hclean nameToOid) as [Nd2 F2],
    (Hclean shortToName) as [Nd3 F3], (Hclean nameToShort) as [Nd4 F4].
  cbn [pairs_written table_of Early.to_nametooid OIDDataSet.nametooid
       OIDDataSet.shorttoname] in *.
  rewrite prod_swap_swap_fmap in Nd1, F1.
  rewrite fst_prod_swap_fmap in Nd2, F2, Nd4, F4.
  f_equal.
  - by apply Early_loop_bwd_clean.
  - by apply Early_loop_bwd_clean.
Qed.

Lemma Early_SHA1SET_clean :
  clean (Early.to_nametooid Early.SHA1SET) new_OIDDataBase.
Proof.
  apply clean_Forall. intros []; split;
    apply (bool_decide_unpack _); vm_compute; exact I.
Defined.

Lemma Early_registOne_agrees_witness :
  (Early.registOne Early.SHA1SET (new_OIDDataBase, [])).1
  = registOne (Early.to_nametooid Early.SHA1SET) new_OIDDataBase.
Proof.
  apply (proj2 (Early_registOne_agrees Early.SHA1SET new_OIDDataBase [])).
  exact Early_SHA1SET_clean.
Defined.

(** X19.  The earliest [registOne], when it merges a data set, writes one
    console line for each key of the data set that was in its table
    before the call, as an own key or as the name of a member inherited
    from [Object.prototype]: first the OIDs, then the short names, then
    the aliases, each in enumeration order, and nothing else. *)
Theorem Early_registOne_console (dataset : Early.OIDDataSet)
    (db : OIDDataBase) (out : list string) :
  Early.setname dataset ∉ _setlist db →
  wf_record (Early.oidtoname dataset) →
  wf_record (entries (Early.shorttoname dataset)) →
  wf_record (entries (Early.alias dataset)) →
  (Early.registOne dataset (db, out)).2
  = (out
     ++ ((λ oid, "already registered: " +:+ oid)
           <$> Early.taken_keys (Early.oidtoname dataset) (_dbOID2NAME db))
     ++ ((λ short, "already registered short name: " +:+ short)
           <$> Early.taken_keys (entries (Early.shorttoname dataset))
                 (_dbSHORT2NAME db))
     ++ ((λ alias, "already registered alias: " +:+ alias)
           <$> Early.taken_keys (entries (Early.alias dataset)) (_dbALIAS db)))%list.
Proof.
  intros Hset Hw1 Hw2 Hw3.
  rewrite Early_registOne_merged by done. cbn [snd].
  rewrite !Early_loop_console by done.
  by rewrite <- !app_assoc.
Qed.

Lemma Early_registOne_console_witness :
  (Early.registOne Early.SHA1SET_OTHER
     ((Early.registOne Early.SHA1SET (new_OIDDataBase, [])).1, [])).2
  = ([]
     ++ ((λ oid, "already registered: " +:+ oid)
           <$> Early.taken_keys (Early.oidtoname Early.SHA1SET_OTHER)
                 (_dbOID2NAME
                    (Early.registOne Early.SHA1SET (new_OIDDataBase, [])).1))
     ++ ((λ short, "already registered short name: " +:+ short)
           <$> Early.taken_keys (entries (Early.shorttoname Early.SHA1SET_OTHER))
                 (_dbSHORT2NAME
                    (Early.registOne Early.SHA1SET (new_OIDDataBase, [])).1))
     ++ ((λ alias, "already registered alias: " +:+ alias)
           <$> Early.taken_keys (entries (Early.alias Early.SHA1SET_OTHER))
                 (_dbALIAS
                    (Early.registOne Early.SHA1SET (new_OIDDataBase, [])).1)))%list.
Proof.
  apply (Early_registOne_console Early.SHA1SET_OTHER
           (Early.registOne Early.SHA1SET (new_OIDDataBase, [])).1 []).
  - rewrite Early_registOne_setlist. apply not_elem_of_nil.
  - apply (bool_decide_unpack _). vm_compute. exact I.
  - apply NoDup_nil_2.
  - apply NoDup_nil_2.
Defined.

(** A key that is the name of an inherited member is reported on an
    empty registry. *)
Example Early_console_constructor :
  (Early.registOne (Early.make "ctor" [("constructor", "x")] None None)
     (new_OIDDataBase, [])).2
  = ["already registered: constructor"].
Proof. by vm_compute. Qed.

(** X20.  [oidtoshort] of the earliest revision is [nametoshort] after
    [oidtoname], without fallback; whenever it returns a short name, the
    later revisions return the same short name. *)
Theorem Early_oidtoshort_later (db : OIDDataBase) (oid : string) :
  Early.oidtoshort db oid = Plain.oidtoname db oid ≫= Plain.nametoshort db
  ∧ ∀ short useUndef,
      Early.oidtoshort db oid = Some short →
      Plain.oidtoshort db oid = Some short
      ∧ UseUndef.oidtoshort db oid useUndef = Some short.
Proof.
  unfold Early.oidtoshort, Plain.oidtoname, Plain.nametoshort,
    Plain.oidtoshort, UseUndef.oidtoshort.
  destruct (get (_dbOID2NAME db) (to_key oid)) as [name|]; simpl; [|done].
  split; [done|]. by intros short useUndef ->.
Qed.

Lemma Early_oidtoshort_later_witness :
  Plain.oidtoshort oiddb "2.5.4.6" = Some "C"
  ∧ UseUndef.oidtoshort oiddb "2.5.4.6" true = Some "C".
Proof.
  apply (proj2 (Early_oidtoshort_later oiddb "2.5.4.6") "C" true).
  vm_compute. reflexivity.
Defined.

(** ** Registering again with the earliest revision *)

Lemma Early_loop_absorbed prefix rec fwd bwd out :
  (∀ k, k ∈ rec.*1 → has_property fwd k) →
  (foldl (Early.write_new prefix) (fwd, bwd, out) rec).1 = (fwd, bwd).
Proof.
  revert out. induction rec as [|[k v] rec IH]; intros out H; [done|].
  cbn [foldl]. rewrite Early_write_new_taken by (apply H; left).
  apply IH. intros k' Hk'. apply H. by right.
Qed.

Lemma Early_registOne_absorbed dataset db out :
  Early.setname dataset ∈ _setlist db ∨ Early.covered dataset db →
  (Early.registOne dataset (db, out)).1 = db.
Proof.
  intros [Hin|(Ho & Hs & Ha)].
  { by rewrite Early_registOne_skipped. }
  destruct (decide (Early.setname dataset ∈ _setlist db)) as [Hin|Hnin].
  { by rewrite Early_registOne_skipped. }
  rewrite Early_registOne_merged by done. cbn [fst].
  rewrite !Early_loop_absorbed by done. by destruct db.
Qed.

Lemma Early_registOne_fwd_mono dataset st :
  _setlist (Early.registOne dataset st).1 = _setlist st.1
  ∧ _dbOID2NAME st.1 ⊆ _dbOID2NAME (Early.registOne dataset st).1
  ∧ _dbSHORT2NAME st.1 ⊆ _dbSHORT2NAME (Early.registOne dataset st).1
  ∧ _dbALIAS st.1 ⊆ _dbALIAS (Early.registOne dataset st).1.
Proof.
  split; [apply Early_registOne_setlist|].
  destruct st as [db out]. cbn [fst].
  destruct (decide (Early.setname dataset ∈ _setlist db)) as [Hin|Hnin].
  { by rewrite Early_registOne_skipped. }
  rewrite Early_registOne_merged by done.
  cbn [fst _dbOID2NAME _dbSHORT2NAME _dbALIAS]. rewrite !Early_loop_fwd.
  split; [|split]; apply merge_first_subseteq.
Qed.

Lemma Early_regist_fwd_mono datasetList st :
  _setlist (Early.regist datasetList st).1 = _setlist st.1
  ∧ _dbOID2NAME st.1 ⊆ _dbOID2NAME (Early.regist datasetList st).1
  ∧ _dbSHORT2NAME st.1 ⊆ _dbSHORT2NAME (Early.regist datasetList st).1
  ∧ _dbALIAS st.1 ⊆ _dbALIAS (Early.regist datasetList st).1.
Proof.
  revert st. induction datasetList as [|d l IH]; intros st; [done|].
  cbn [Early.regist foldl]. fold (Early.regist l (Early.registOne d st)).
  destruct (IH (Early.registOne d st)) as (E1 & O1 & S1 & A1).
  destruct (Early_registOne_fwd_mono d st) as (E2 & O2 & S2 & A2).
  split; [congruence|]. split; [|split]; by etrans.
Qed.

Lemma Early_registOne_covered dataset st :
  Early.setname dataset ∉ _setlist st.1 →
  Early.covered dataset (Early.registOne dataset st).1.
Proof.
  destruct st as [db out]. cbn [fst]. intros Hnin.
  rewrite Early_registOne_merged by done.
  unfold Early.covered. cbn [fst _dbOID2NAME _dbSHORT2NAME _dbALIAS].
  rewrite !Early_loop_fwd.
  split; [|split]; intros k Hk; apply list_elem_of_fmap in Hk as ([k' v] & -> & Hin);
    by eapply merge_first_has_property.
Qed.

Lemma Early_covered_mono dataset db db' :
  _dbOID2NAME db ⊆ _dbOID2NAME db' →
  _dbSHORT2NAME db ⊆ _dbSHORT2NAME db' →
  _dbALIAS db ⊆ _dbALIAS db' →
  Early.covered dataset db → Early.covered dataset db'.
Proof.
  intros HO HS HA (Ho & Hs & Ha).
  split; [|split]; intros k Hk.
  - by eapply has_property_weaken, Ho.
  - by eapply has_property_weaken, Hs.
  - by eapply has_property_weaken, Ha.
Qed.

Lemma Early_regist_app l1 l2 st :
  Early.regist (l1 ++ l2) st = Early.regist l2 (Early.regist l1 st).
Proof. unfold Early.regist. apply foldl_app. Qed.

Lemma Early_regist_absorbed datasetList st :
  (∀ dataset, dataset ∈ datasetList →
     Early.setname dataset ∈ _setlist st.1 ∨ Early.covered dataset st.1) →
  (Early.regist datasetList st).1 = st.1.
Proof.
  revert st. induction datasetList as [|d l IH]; intros [db out] H; [done|].
  cbn [Early.regist foldl]. fold (Early.regist l (Early.registOne d (db, out))).
  cbn [fst] in *.
  pose proof (Early_registOne_absorbed d db out (H d ltac:(left))) as Hd.
  destruct (Early.registOne d (db, out)) as [db1 out1]. cbn [fst] in Hd.
  subst db1. rewrite IH; [done|]. cbn [fst].
  intros d' Hd'. apply H. by right.
Qed.

Lemma Early_loop_console_grows prefix rec fwd bwd out :
  ∃ lines, (foldl (Early.write_new prefix) (fwd, bwd, out) rec).2
           = (out ++ lines)%list.
Proof.
  revert fwd bwd out. induction rec as [|[k v] rec IH]; intros fwd bwd out.
  - exists []. simpl. by rewrite app_nil_r.
  - rewrite Early_loop_cons. destruct (decide (has_property fwd k)).
    + destruct (IH fwd bwd (out ++ [prefix +:+ k])%list) as [lines ->].
      exists ((prefix +:+ k) :: lines). by rewrite <- app_assoc.
    + apply IH.
Qed.

Lemma Early_registOne_console_grows dataset st :
  ∃ lines, (Early.registOne dataset st).2 = (st.2 ++ lines)%list.
Proof.
  destruct st as [db out]. cbn [snd].
  destruct (decide (Early.setname dataset ∈ _setlist db)) as [Hin|Hnin].
  { rewrite Early_registOne_skipped by done. exists []. simpl.
    by rewrite app_nil_r. }
  rewrite Early_registOne_merged by done. cbn [snd].
  destruct (Early_loop_console_grows "already registered: "
              (Early.oidtoname dataset) (_dbOID2NAME db) (_dbNAME2OID db) out)
    as [l1 ->].
  destruct (Early_loop_console_grows "already registered short name: "
              (entries (Early.shorttoname dataset)) (_dbSHORT2NAME db)
              (_dbNAME2SHORT db) (out ++ l1)%list) as [l2 ->].
  destruct (Early_loop_console_grows "already registered alias: "
              (entries (Early.alias dataset)) (_dbALIAS db) ∅
              ((out ++ l1) ++ l2)%list) as [l3 ->].
  exists (l1 ++ l2 ++ l3)%list. by rewrite <- !app_assoc.
Qed.

Lemma Early_regist_console_grows datasetList st :
  ∃ lines, (Early.regist datasetList st).2 = (st.2 ++ lines)%list.
Proof.
  revert st. induction datasetList as [|d l IH]; intros st.
  - exists []. simpl. by rewrite app_nil_r.
  - cbn [Early.regist foldl]. fold (Early.regist l (Early.registOne d st)).
    destruct (IH (Early.registOne d st)) as [l2 ->].
    destruct (Early_registOne_console_grows d st) as [l1 ->].
    exists (l1 ++ l2)%list. by rewrite <- app_assoc.
Qed.

(** X21.  With the earliest revision too, calling [regist] a second time
    with the same list leaves the registry as the first call left it; the
    second call only adds lines to the console. *)
Theorem Early_regist_idempotent (datasetList : list Early.OIDDataSet)
    (st : OIDDataBase * list string) :
  (Early.regist datasetList (Early.regist datasetList st)).1
  = (Early.regist datasetList st).1
  ∧ ∃ lines,
      (Early.regist datasetList (Early.regist datasetList st)).2
      = ((Early.regist datasetList st).2 ++ lines)%list.
Proof.
  split; [|apply Early_regist_console_grows].
  apply Early_regist_absorbed. intros dataset Hin.
  apply list_elem_of_split in Hin as (l1 & l2 & ->).
  rewrite Early_regist_app.
  cbn [Early.regist foldl].
  fold (Early.regist l2 (Early.registOne dataset (Early.regist l1 st))).
  set (st1 := Early.regist l1 st).
  destruct (Early_regist_fwd_mono l2 (Early.registOne dataset st1))
    as (E & HO & HS & HA).
  destruct (decide (Early.setname dataset ∈ _setlist st1.1)) as [Hs|Hs].
  - left. by rewrite E, Early_registOne_setlist.
  - right. eapply Early_covered_mono; [done..|].
    by apply Early_registOne_covered.
Qed.
